(** * The dnsserver core of coredns-tailscale-gateway: construction,
      zone multiplexing, panic recovery and shutdown

    A shallow embedding of [core/dnsserver/server.go] (package
    [dnsserver]): [NewServer], [Serve], [ServePacket], [Stop] and
    [ServeDNS] with its helpers, followed by the properties of the
    zone multiplexer, of the plugin-chain compiler and of the
    life-cycle functions. *)

From Stdlib Require Import ZArith Ascii String List Bool Lia Sorted.
From stdpp Require Import base option list strings gmap fin_maps.

Import ListNotations.
Local Open Scope Z_scope.

(** ** Go strings

    A Go string is a sequence of bytes indexed from 0.  Offsets are Go
    [int]s; they stay far from the 64-bit bounds here (they index the
    query name), so they are plain [Z]. *)

Definition len (s : string) : Z := Z.of_nat (String.length s).

(** [s[i]] for an index inside the string. *)
Definition byteAt (s : string) (i : Z) : option ascii :=
  if i <? 0 then None else String.get (Z.to_nat i) s.

Fixpoint dropBytes (n : nat) (s : string) : string :=
  match n, s with
  | O, _ => s
  | S _, EmptyString => EmptyString
  | S n', String _ s' => dropBytes n' s'
  end.

(** [s[off:]], for [0 <= off <= len s]. *)
Definition sliceFrom (s : string) (off : Z) : string :=
  dropBytes (Z.to_nat off) s.

Definition isByte (c : ascii) (o : option ascii) : bool :=
  match o with
  | Some c' => Ascii.eqb c c'
  | None => false
  end.

(** [strings.ToLower] on the names the server sees.  The DNS library
    presents a query name in its printable form (bytes outside the
    printable ASCII range are escaped as [\DDD]), on which lower-casing
    acts byte by byte on ['A'..'Z']. *)
Definition lowerByte (c : ascii) : ascii :=
  let n := N_of_ascii c in
  if ((65 <=? n) && (n <=? 90))%N then ascii_of_N (n + 32) else c.

Fixpoint ToLower (s : string) : string :=
  match s with
  | EmptyString => EmptyString
  | String c s' => String (lowerByte c) (ToLower s')
  end.

(** ** [dns.NextLabel]

    The label stepper of the DNS library ([github.com/miekg/dns],
    [labels.go]), which the suffix walk of [ServeDNS] calls:
<<
    func NextLabel(s string, offset int) (i int, end bool) {
        if len(s) == 0 { return 0, true }
        for i = offset; i < len(s)-1; i++ {
            if s[i] != '.' { continue }
            j := i - 1
            for j >= 0 && s[j] == '\\' { j-- }
            if (j-i)%2 == 0 { continue }
            return i + 1, false
        }
        return i + 1, true
    }
>>
*)

(** The inner loop: step [j] back over the backslashes before a dot.
    [n] bounds the number of steps; the caller passes [j + 1]. *)
Fixpoint skipBackslashes (s : string) (n : nat) (j : Z) : Z :=
  match n with
  | O => j
  | S n' =>
      if (0 <=? j) && isByte "\"%char (byteAt s j)
      then skipBackslashes s n' (j - 1)
      else j
  end.

(** A dot at [i] starts a new label unless an odd number of
    backslashes escapes it; Go's [%] truncates, as [Z.rem] does. *)
Definition labelBreak (s : string) (i : Z) : bool :=
  isByte "."%char (byteAt s i) &&
  negb (Z.rem (skipBackslashes s (Z.to_nat i) (i - 1) - i) 2 =? 0).

(** The outer loop, with [n] the number of iterations left before
    [i] reaches [len s - 1]. *)
Fixpoint nextLabelFrom (s : string) (n : nat) (i : Z) : Z * bool :=
  match n with
  | O => (i + 1, true)
  | S n' =>
      if labelBreak s i then (i + 1, false)
      else nextLabelFrom s n' (i + 1)
  end.

Definition NextLabel (s : string) (offset : Z) : Z * bool :=
  if String.eqb s EmptyString then (0, true)
  else nextLabelFrom s (Z.to_nat (len s - 1 - offset)) offset.


(** ** DNS messages

    The fields of [dns.Msg] and [dns.Question] that the server reads.
    [Qtype] and [Qclass] are [uint16]; [EdnsVersion] is the version of
    the OPT record when the message carries one. *)

Record Question := mkQuestion {
  QName : string;
  Qtype : Z;
  Qclass : Z
}.

Record Msg := mkMsg {
  Id : Z;
  Questions : list Question;
  EdnsVersion : option Z
}.

Definition ClassINET : Z := 1.
Definition ClassCHAOS : Z := 3.
Definition TypeA : Z := 1.
Definition TypeDS : Z := 43.
Definition RcodeSuccess : Z := 0.
Definition RcodeServerFailure : Z := 2.
Definition RcodeRefused : Z := 5.

(** A message that a plugin writes: its rcode and its content. *)
Record PluginMsg := mkPluginMsg {
  MsgRcode : Z;
  MsgBody : string
}.

(** What is written to the client: an answer built by
    [answer.SetRcode(r, rc)] in [errorFunc] / [errorAndMetricsFunc], the
    BADVERS message of [edns.Version], or a message written by a
    plugin. *)
Inductive Reply :=
  | ErrorReply (r : Msg) (rc : Z)
  | BadVersReply (r : Msg)
  | PluginReply (m : PluginMsg).

(** The response writer handed to [ServeDNS], before and after
    [w = request.NewScrubWriter(r, w)]. *)
Inductive Writer := RawWriter | ScrubWriter.

(** ** Contexts

    A [context.Context] is the chain of values attached by
    [context.WithValue]; the newest binding is in front. *)
Inductive CtxKey :=
  | Key
  | LoopKey
  | ViewKey
  | MetadataKey (name : string).

Inductive CtxVal :=
  | VServer (addr : string)
  | VInt (n : Z)
  | VString (s : string).

Definition Ctx : Type := list (CtxKey * CtxVal).

Definition Background : Ctx := [].

Definition WithValue (ctx : Ctx) (k : CtxKey) (v : CtxVal) : Ctx :=
  (k, v) :: ctx.

(** ** Plugins

    A call either returns or panics with a value. *)
Inductive Result (A : Type) :=
  | Ok (a : A)
  | Panic (v : string).
Arguments Ok {A} a.
Arguments Panic {A} v.

(** [MetadataCollector]: [Collect(ctx, state)] returns the enriched
    context.  Of the [request.Request] handed to collectors and filters
    the model keeps the message. *)
Definition MetadataCollector : Type := Ctx -> Msg -> Result Ctx.

(** A [plugin.Handler]: its [Name()], what [ServeDNS(ctx, w, r)] writes
    to [w] and the rcode it returns (the server discards the returned
    error) or the panic it raises, and the optional capabilities that
    [NewServer] probes by type assertion: [MetadataCollector] and
    [trace.Trace]. *)
Record Handler := mkHandler {
  Name : string;
  HServeDNS : Ctx -> Writer -> Msg -> list PluginMsg * Result Z;
  asMetadataCollector : option MetadataCollector;
  asTrace : bool
}.

(** [plugin.Plugin], [func(Handler) Handler]: the argument is the
    chain built so far, nil for the innermost plugin. *)
Definition PluginFunc : Type := option Handler -> Handler.

(** [FilterFunc], a predicate over the context and the request. *)
Definition FilterFunc : Type := Ctx -> Msg -> Result bool.

(** ** Config

    Modelled from the spec: the [Config] struct is declared outside
    [server.go]; it is the zone configuration object with the fields
    that [server.go] reads and writes, typed as their uses there
    require.  Durations are [time.Duration], nanoseconds in an
    [int64]. *)
Record Config := mkConfig {
  Zone : string;
  Debug : bool;
  Stacktrace : bool;
  ReadTimeout : Z;
  WriteTimeout : Z;
  IdleTimeout : Z;
  TsigSecret : gmap string string;
  Plugin : list PluginFunc;
  FilterFuncs : list FilterFunc;
  ViewName : string;
  pluginChain : option Handler;
  metaCollector : option MetadataCollector;
  registry : list Handler
}.

Definition second : Z := 1000000000.

(** ** Server *)

(** The [dns.Server] values built by [Serve] and [ServePacket].
    [Shutdown] is the error its [Shutdown()] returns, [None] for nil. *)
Record DnsServer := mkDnsServer {
  Net : string;
  SrvTsigSecret : gmap string string;
  MaxTCPQueries : Z;
  SrvReadTimeout : Z;
  SrvWriteTimeout : Z;
  SrvIdleTimeout : Z;
  Shutdown : option string
}.

Record Server := mkServer {
  Addr : string;
  server : list (option DnsServer);
  zones : gmap string (list Config);
  dnsWg : Z;
  graceTimeout : Z;
  trace : option Handler;
  debug : bool;
  stacktrace : bool;
  classChaos : bool;
  idleTimeout : Z;
  readTimeout : Z;
  writeTimeout : Z;
  tsigSecret : gmap string string
}.

Definition tcp : nat := 0.
Definition udp : nat := 1.
Definition tcpMaxQueries : Z := -1.

(** [EnableChaos], the plugin names that open CH class queries. *)
Definition EnableChaos : gset string :=
  {[ "chaos"%string; "forward"%string; "proxy"%string ]}.

Definition inEnableChaos (name : string) : bool :=
  bool_decide (name ∈ EnableChaos).

(** Field updates, written [x.f = v] in the source. *)
Definition setChain (c : Config) (stack : option Handler)
    (mc : option MetadataCollector) (reg : list Handler) : Config :=
  {| Zone := Zone c; Debug := Debug c; Stacktrace := Stacktrace c;
     ReadTimeout := ReadTimeout c; WriteTimeout := WriteTimeout c;
     IdleTimeout := IdleTimeout c; TsigSecret := TsigSecret c;
     Plugin := Plugin c; FilterFuncs := FilterFuncs c;
     ViewName := ViewName c;
     pluginChain := stack; metaCollector := mc; registry := reg |}.

(** ** NewServer *)

(** What the plugin loop of [NewServer] reads and writes: the chain
    under construction, the two [Config] fields it sets
    ([registerHandler], [metaCollector]) and the two [Server] fields it
    sets ([trace], [classChaos]). *)
Record Compile := mkCompile {
  stack : option Handler;
  cRegistry : list Handler;
  cMetaCollector : option MetadataCollector;
  cTrace : option Handler;
  cClassChaos : bool
}.

(** Modelled from the spec: [Config.registerHandler] is declared with
    [Config] outside [server.go]; it registers the link with the Config
    so that later phases can introspect it. *)
Definition registerHandler (reg : list Handler) (h : Handler)
    : list Handler :=
  h :: reg.

(** One iteration of [for i := len(site.Plugin) - 1; i >= 0; i--],
    with [p = site.Plugin[i]]. *)
Definition compileStep (st : Compile) (p : PluginFunc) : Compile :=
  let h := p (stack st) in
  {| stack := Some h;
     cRegistry := registerHandler (cRegistry st) h;
     cMetaCollector :=
       match asMetadataCollector h with
       | Some mdc => Some mdc
       | None => cMetaCollector st
       end;
     cTrace :=
       match cTrace st with
       | None =>
           if String.eqb (Name h) "trace" && asTrace h
           then Some h else None
       | Some t => Some t
       end;
     cClassChaos :=
       if inEnableChaos (Name h) then true else cClassChaos st |}.

(** The loop runs over [site.Plugin] from its last element to its
    first: [ps] is the list reversed. *)
Fixpoint compileLoop (ps : list PluginFunc) (st : Compile) : Compile :=
  match ps with
  | [] => st
  | p :: ps' => compileLoop ps' (compileStep st p)
  end.

Definition compilePlugins (site : Config) (tr : option Handler)
    (chaos : bool) : Compile :=
  compileLoop (rev (Plugin site))
    {| stack := None; cRegistry := registry site;
       cMetaCollector := metaCollector site;
       cTrace := tr; cClassChaos := chaos |}.

(** A [Config] after the plugin loop and [site.pluginChain = stack],
    on a server in state [s]. *)
Definition compiled (s : Server) (site : Config) : Config :=
  let c := compilePlugins site (trace s) (classChaos s) in
  setChain site (stack c) (cMetaCollector c) (cRegistry c).

(** The body of [for _, site := range group].  [group] holds pointers
    and [s.zones] stores the same pointer that the plugin loop then
    fills in, so the zone entry is the compiled [Config]. *)
Definition addSite (s : Server) (site : Config) : Server :=
  let c := compilePlugins site (trace s) (classChaos s) in
  {| Addr := Addr s;
     server := server s;
     zones := <[Zone site :=
                  default [] (zones s !! Zone site) ++ [compiled s site]]>
                (zones s);
     dnsWg := dnsWg s;
     graceTimeout := graceTimeout s;
     trace := cTrace c;
     debug := if Debug site then true else debug s;
     stacktrace := Stacktrace site;
     classChaos := cClassChaos c;
     idleTimeout :=
       if IdleTimeout site =? 0 then idleTimeout s else IdleTimeout site;
     readTimeout :=
       if ReadTimeout site =? 0 then readTimeout s else ReadTimeout site;
     writeTimeout :=
       if WriteTimeout site =? 0 then writeTimeout s else WriteTimeout site;
     tsigSecret := TsigSecret site ∪ tsigSecret s |}.

(** The [Server] literal of [NewServer] followed by [s.dnsWg.Add(1)]. *)
Definition emptyServer (addr : string) : Server :=
  {| Addr := addr;
     server := [None; None];
     zones := ∅;
     dnsWg := 0 + 1;
     graceTimeout := 5 * second;
     trace := None;
     debug := false;
     stacktrace := false;
     classChaos := false;
     idleTimeout := 10 * second;
     readTimeout := 3 * second;
     writeTimeout := 5 * second;
     tsigSecret := ∅ |}.

(** [NewServer]; its error result is always nil. *)
Definition NewServer (addr : string) (group : list Config) : Server :=
  fold_left addSite group (emptyServer addr).

(** ** Serve, ServePacket and Stop *)

(** A listener or packet connection handed to the server; the model
    keeps the error that shutting the [dns.Server] built on it down
    will return ([None] is nil). *)
Record Listener := mkListener { shutdownError : option string }.

Definition setSlot (s : Server) (i : nat) (d : DnsServer) : Server :=
  {| Addr := Addr s;
     server := <[i := Some d]> (server s);
     zones := zones s; dnsWg := dnsWg s; graceTimeout := graceTimeout s;
     trace := trace s; debug := debug s; stacktrace := stacktrace s;
     classChaos := classChaos s; idleTimeout := idleTimeout s;
     readTimeout := readTimeout s; writeTimeout := writeTimeout s;
     tsigSecret := tsigSecret s |}.

(** [Serve]: the assignment to [s.server[tcp]] made under the mutex,
    before [ActivateAndServe] blocks. *)
Definition Serve (s : Server) (l : Listener) : Server :=
  setSlot s tcp
    {| Net := "tcp";
       SrvTsigSecret := tsigSecret s;
       MaxTCPQueries := tcpMaxQueries;
       SrvReadTimeout := readTimeout s;
       SrvWriteTimeout := writeTimeout s;
       SrvIdleTimeout := idleTimeout s;
       Shutdown := shutdownError l |}.

(** [ServePacket]: the assignment to [s.server[udp]]; the fields the
    literal leaves out keep their zero value. *)
Definition ServePacket (s : Server) (p : Listener) : Server :=
  setSlot s udp
    {| Net := "udp";
       SrvTsigSecret := tsigSecret s;
       MaxTCPQueries := 0;
       SrvReadTimeout := 0;
       SrvWriteTimeout := 0;
       SrvIdleTimeout := 0;
       Shutdown := shutdownError p |}.

(** The loop [for _, s1 := range s.server] of [Stop], with [err] the
    named result. *)
Fixpoint shutdownAll (slots : list (option DnsServer))
    (err : option string) : option string :=
  match slots with
  | [] => err
  | None :: rest => shutdownAll rest err
  | Some s1 :: rest => shutdownAll rest (Shutdown s1)
  end.

(** [Stop], sequentially: off Windows the barrier credit is given back
    ([s.dnsWg.Done()]); the wait on the group, raced against
    [time.After(s.graceTimeout)], has no counterpart here.  Then every
    started listener is shut down. *)
Definition Stop (windows : bool) (s : Server) : Server * option string :=
  let s' :=
    {| Addr := Addr s; server := server s; zones := zones s;
       dnsWg := if windows then dnsWg s else dnsWg s - 1;
       graceTimeout := graceTimeout s;
       trace := trace s; debug := debug s; stacktrace := stacktrace s;
       classChaos := classChaos s; idleTimeout := idleTimeout s;
       readTimeout := readTimeout s; writeTimeout := writeTimeout s;
       tsigSecret := tsigSecret s |} in
  (s', shutdownAll (server s) None).

(** ** ServeDNS *)

(** What a request makes the server do, in order. *)
Inductive Event :=
  | EvLog (withStack : bool) (addr : string) (v : string)
      (* log.Errorf("Recovered from panic in server: ...") *)
  | EvPanicInc
      (* vars.Panic.Inc() *)
  | EvReport (addr : string) (rc : Z)
      (* vars.Report(server, state, vars.Dropped, ...) *)
  | EvWrite (w : Writer) (m : Reply).
      (* w.WriteMsg(m) *)

(** The events of a call and how it ends: a normal return, or a panic
    that leaves the function. *)
Definition Outcome : Type := list Event * Result unit.

Definition returns (t : list Event) : Outcome := (t, Ok tt).

(** A panic before anything was written. *)
Definition panics (v : string) : Outcome := ([], Panic v).

Definition errorFunc (addr : string) (w : Writer) (r : Msg) (rc : Z)
    : list Event :=
  [EvWrite w (ErrorReply r rc)].

Definition errorAndMetricsFunc (addr : string) (w : Writer) (r : Msg)
    (rc : Z) : list Event :=
  [EvReport addr rc; EvWrite w (ErrorReply r rc)].

(** Modelled from the spec: [edns.Version] (plugin/pkg/edns) answers a
    request that declares an unsupported EDNS version with the
    version-negotiation message, and lets any other request through. *)
Definition ednsVersion (r : Msg) : option Reply :=
  match EdnsVersion r with
  | Some v => if v =? 0 then None else Some (BadVersReply r)
  | None => None
  end.

Fixpoint passAllFilterFuncs (ctx : Ctx) (filterFuncs : list FilterFunc)
    (req : Msg) : Result bool :=
  match filterFuncs with
  | [] => Ok true
  | ff :: rest =>
      match ff ctx req with
      | Ok true => passAllFilterFuncs ctx rest req
      | Ok false => Ok false
      | Panic v => Panic v
      end
  end.

(** [ctx = h.metaCollector.Collect(ctx, ...)] when the Config has a
    collector. *)
Definition collectMetadata (ctx : Ctx) (h : Config) (r : Msg)
    : Result Ctx :=
  match metaCollector h with
  | Some collect => collect ctx r
  | None => Ok ctx
  end.

(** [ctx = context.WithValue(ctx, ViewKey{}, h.ViewName)] when the
    Config declares a view. *)
Definition withViewName (ctx : Ctx) (h : Config) : Ctx :=
  if String.eqb (ViewName h) EmptyString then ctx
  else WithValue ctx ViewKey (VString (ViewName h)).

(** How a loop of [ServeDNS] is left: by a [return] of the function,
    with what it did, or by falling out of the loop with the current
    context and DS handler. *)
Inductive LoopExit :=
  | Return (o : Outcome)
  | Next (ctx : Ctx) (dshandler : option Config).

Section Dispatch.

(** [plugin.ClientWrite]: whether a returned rcode means that the
    chain has already written the response to the client.  It is
    declared in package [plugin]; the server only calls it. *)
Variable ClientWrite : Z -> bool.

Variable s : Server.
Variable r : Msg.

(** A plugin's [w.WriteMsg(m)]. *)
Definition pluginWrite (w : Writer) (m : PluginMsg) : Event :=
  EvWrite w (PluginReply m).

(** [rcode, _ := chain.ServeDNS(ctx, w, r)] followed by
    [if !plugin.ClientWrite(rcode) { errorFunc(s.Addr, w, r, rcode) }]
    and [return]. *)
Definition serveChain (chain : Handler) (ctx : Ctx) (w : Writer)
    : Outcome :=
  let '(written, res) := HServeDNS chain ctx w r in
  match res with
  | Ok rcode =>
      returns (map (pluginWrite w) written ++
               (if ClientWrite rcode then []
                else errorFunc (Addr s) w r rcode))
  | Panic v => (map (pluginWrite w) written, Panic v)
  end.

(** [for _, h := range z] of the suffix walk; [ds] says whether
    [r.Question[0].Qtype == dns.TypeDS]. *)
Fixpoint zoneLoop (ds : bool) (w : Writer) (z : list Config) (ctx : Ctx)
    (dshandler : option Config) : LoopExit :=
  match z with
  | [] => Next ctx dshandler
  | h :: z' =>
      match pluginChain h with
      | None =>
          Return (returns (errorAndMetricsFunc (Addr s) w r RcodeRefused))
      | Some chain =>
          match collectMetadata ctx h r with
          | Panic v => Return (panics v)
          | Ok ctx =>
              match passAllFilterFuncs ctx (FilterFuncs h) r with
              | Panic v => Return (panics v)
              | Ok true =>
                  let ctx := withViewName ctx h in
                  if ds then zoneLoop ds w z' ctx (Some h)
                  else Return (serveChain chain ctx w)
              | Ok false => zoneLoop ds w z' ctx dshandler
              end
          end
      end
  end.

(** The suffix walk [for { ... off, end = dns.NextLabel(q, off) ... }].
    The loop has no bound of its own; [fuel] counts the iterations
    allowed and [None] means that they ran out. *)
Fixpoint walkLoop (fuel : nat) (ds : bool) (w : Writer) (q : string)
    (off : Z) (ctx : Ctx) (dshandler : option Config)
    : option LoopExit :=
  match fuel with
  | O => None
  | S fuel' =>
      let exit :=
        match zones s !! sliceFrom q off with
        | Some z => zoneLoop ds w z ctx dshandler
        | None => Next ctx dshandler
        end in
      match exit with
      | Return o => Some (Return o)
      | Next ctx' dshandler' =>
          let '(off', e) := NextLabel q off in
          if e then Some (Next ctx' dshandler')
          else walkLoop fuel' ds w q off' ctx' dshandler'
      end
  end.

(** [for _, h := range z] of the wildcard match on the root zone. *)
Fixpoint rootLoop (w : Writer) (z : list Config) (ctx : Ctx)
    : LoopExit :=
  match z with
  | [] => Next ctx None
  | h :: z' =>
      match pluginChain h with
      | None => rootLoop w z' ctx
      | Some chain =>
          match collectMetadata ctx h r with
          | Panic v => Return (panics v)
          | Ok ctx =>
              match passAllFilterFuncs ctx (FilterFuncs h) r with
              | Panic v => Return (panics v)
              | Ok true => Return (serveChain chain (withViewName ctx h) w)
              | Ok false => rootLoop w z' ctx
              end
          end
      end
  end.

(** The wildcard match and the final REFUSED. *)
Definition rootFallback (w : Writer) (ctx : Ctx) : Outcome :=
  let exit :=
    match zones s !! "."%string with
    | Some z => rootLoop w z ctx
    | None => Next ctx None
    end in
  match exit with
  | Return o => o
  | Next _ _ => returns (errorAndMetricsFunc (Addr s) w r RcodeRefused)
  end.

(** What follows the walk: the DS dispatch when
    [Qtype == dns.TypeDS && dshandler != nil &&
     dshandler.pluginChain != nil], else the root zone. *)
Definition afterWalk (ds : bool) (w : Writer) (ctx : Ctx)
    (dshandler : option Config) : Outcome :=
  match ds, dshandler with
  | true, Some h =>
      match pluginChain h with
      | Some chain => serveChain chain ctx w
      | None => rootFallback w ctx
      end
  | _, _ => rootFallback w ctx
  end.

(** From [q := strings.ToLower(r.Question[0].Name)] to the end of
    [ServeDNS], with [w] already the scrub writer.  The walk is given
    one iteration per byte of [q] and one more. *)
Definition multiplex (ctx : Ctx) (q0 : Question) : option Outcome :=
  let q := ToLower (QName q0) in
  let ds := Qtype q0 =? TypeDS in
  match walkLoop (S (String.length q)) ds ScrubWriter q 0 ctx None with
  | None => None
  | Some (Return o) => Some o
  | Some (Next ctx' dshandler) =>
      Some (afterWalk ds ScrubWriter ctx' dshandler)
  end.

(** The body of [ServeDNS] that runs under the deferred function: the
    class check, the EDNS version check and the multiplexer. *)
Definition serveQuestion (ctx : Ctx) (q0 : Question) : option Outcome :=
  if negb (classChaos s) && negb (Qclass q0 =? ClassINET) then
    Some (returns (errorAndMetricsFunc (Addr s) RawWriter r RcodeRefused))
  else
    match ednsVersion r with
    | Some m => Some (returns [EvWrite RawWriter m])
    | None => multiplex ctx q0
    end.

(** The deferred function: [recover()] stops a panic of the body, logs
    it, counts it and answers SERVFAIL.  The closure reads [w] when it
    runs; the calls that can panic come after
    [w = request.NewScrubWriter(r, w)]. *)
Definition recovered (o : Outcome) : Outcome :=
  match o with
  | (t, Panic v) =>
      returns (t ++ [EvLog (stacktrace s) (Addr s) v; EvPanicInc] ++
               errorAndMetricsFunc (Addr s) ScrubWriter r
                 RcodeServerFailure)
  | (t, Ok u) => (t, Ok u)
  end.

(** [if !s.debug { defer func() { ... }() }]: the deferred function is
    installed outside debug mode only. *)
Definition underDefer (o : Outcome) : Outcome :=
  if debug s then o else recovered o.

(** [ServeDNS(ctx, w, r)] for a non-nil [r]. *)
Definition ServeDNS (ctx : Ctx) : option Outcome :=
  match Questions r with
  | [] =>
      Some (returns
              (errorAndMetricsFunc (Addr s) RawWriter r RcodeServerFailure))
  | q0 :: _ =>
      match serveQuestion ctx q0 with
      | None => None
      | Some o => Some (underDefer o)
      end
  end.

End Dispatch.

(** ** Notions used to state the properties *)

(** The links of a chain in the order [NewServer] builds them: [ps] is
    the constructor list reversed, [st] the chain below the first. *)
Fixpoint chainLinks (ps : list PluginFunc) (st : option Handler)
    : list Handler :=
  match ps with
  | [] => []
  | p :: ps' => let h := p st in h :: chainLinks ps' (Some h)
  end.

(** The links of [site]'s chain in the order the reverse pass meets
    them (innermost first), and the collectors among them. *)
Definition linksOf (site : Config) : list Handler :=
  chainLinks (rev (Plugin site)) None.

Definition collectorsOf (site : Config) : list MetadataCollector :=
  omap asMetadataCollector (linksOf site).

(** A chaos-enabling plugin is present somewhere in the group. *)
Definition hasChaosPlugin (group : list Config) : bool :=
  existsb (fun site => existsb (fun h => inEnableChaos (Name h))
                         (linksOf site)) group.

(** The timeouts a list of Configs specifies: the non-zero ones. *)
Definition specifiedTimeouts (vals : list Z) : list Z :=
  filter (fun v => v ≠ 0) vals.

(** The claimed aggregate: the maximum of the specified values, the
    default when there is none. *)
Definition spec_maxTimeout (dflt : Z) (vals : list Z) : Z :=
  match specifiedTimeouts vals with
  | [] => dflt
  | v :: vs => fold_left Z.max vs v
  end.

(** The offsets at which the suffix walk looks up [q[off:]], given
    [fuel] iterations. *)
Fixpoint walkOffsets (fuel : nat) (q : string) (off : Z) : list Z :=
  match fuel with
  | O => []
  | S fuel' =>
      off :: (let '(off', e) := NextLabel q off in
              if e then [] else walkOffsets fuel' q off')
  end.

Definition walkSuffixes (q : string) : list string :=
  map (sliceFrom q) (walkOffsets (S (String.length q)) q 0).

(** The Configs the walk meets, in the order it meets them: longest
    suffix first, registration order under one zone name. *)
Definition configsAt (s : Server) (zs : list string) : list Config :=
  concat (map (fun z => default [] (zones s !! z)) zs).

Definition visited (s : Server) (q : string) : list Config :=
  configsAt s (walkSuffixes q).

(** What the walk over [q] is to the multiplexer: the suffixes [zs]
    start with the full name, each further one starts after a dot of
    [q], they get shorter and shorter, and the root zone name is among
    them only if [q] is the root or ends in an empty label. *)
Definition labelWalk (q : string) (zs : list string) : Prop :=
  head zs = Some q ∧
  Forall (fun z => ∃ off, 0 ≤ off ≤ len q ∧ z = sliceFrom q off ∧
                          (off = 0 ∨
                           isByte "."%char (byteAt q (off - 1)) = true))
         zs ∧
  StronglySorted (fun a b => (String.length b < String.length a)%nat) zs ∧
  ("."%string ∈ zs →
   q = "."%string ∨ isByte "."%char (byteAt q (len q - 2)) = true).

Definition hasChain (h : Config) : bool :=
  match pluginChain h with Some _ => true | None => false end.

(** What considering [h] with context [ctx] gives: whether its filters
    all pass and the context afterwards (with the view name when they
    pass), or the panic of its collector or of a filter. *)
Definition consider (r : Msg) (ctx : Ctx) (h : Config)
    : Result (bool * Ctx) :=
  match collectMetadata ctx h r with
  | Panic v => Panic v
  | Ok ctx' =>
      match passAllFilterFuncs ctx' (FilterFuncs h) r with
      | Panic v => Panic v
      | Ok true => Ok (true, withViewName ctx' h)
      | Ok false => Ok (false, ctx')
      end
  end.

(** The Configs [hs] are considered one after the other from [ctx]
    without a panic, each with a verdict that [allow]s; the result is
    the context afterwards. *)
Fixpoint considered (r : Msg) (allow : bool -> bool) (ctx : Ctx)
    (hs : list Config) : option Ctx :=
  match hs with
  | [] => Some ctx
  | h :: hs' =>
      match consider r ctx h with
      | Ok (pass, ctx') =>
          if allow pass then considered r allow ctx' hs' else None
      | Panic _ => None
      end
  end.

(** None of [hs] passes its filters. *)
Definition rejected (r : Msg) (ctx : Ctx) (hs : list Config)
    : option Ctx :=
  considered r negb ctx hs.

(** The verdicts after which the walk goes on to the next Config: any
    for a DS query, a rejection otherwise. *)
Definition goesOn (ds : bool) (pass : bool) : bool := ds || negb pass.

(** The request gets past the class check and the EDNS check. *)
Definition admitted (s : Server) (r : Msg) (q0 : Question) : Prop :=
  (classChaos s = true ∨ Qclass q0 = ClassINET) ∧ ednsVersion r = None.

(** The answer to [r] is what dispatching to [h]'s chain gives. *)
Definition dispatchesTo (ClientWrite : Z -> bool) (s : Server) (r : Msg)
    (o : option Outcome) (h : Config) : Prop :=
  ∃ chain ctx',
    pluginChain h = Some chain ∧
    o = Some (underDefer s r (serveChain ClientWrite s r chain ctx'
                                ScrubWriter)).

(** The outcome "REFUSED, reported and written to [w]". *)
Definition refused (s : Server) (r : Msg) (w : Writer) : Outcome :=
  returns (errorAndMetricsFunc (Addr s) w r RcodeRefused).

(** Counting in a trace: increments of the panic counter, and SERVFAIL
    answers synthesized by the server. *)
Definition isPanicInc (e : Event) : bool :=
  match e with EvPanicInc => true | _ => false end.

Definition isServfail (e : Event) : bool :=
  match e with
  | EvWrite _ (ErrorReply _ rc) => rc =? RcodeServerFailure
  | _ => false
  end.

(** A REFUSED answer written to the writer [ServeDNS] was called
    with, as the class check does. *)
Definition isRawRefused (e : Event) : bool :=
  match e with
  | EvWrite RawWriter (ErrorReply _ rc) => rc =? RcodeRefused
  | _ => false
  end.

Definition count (p : Event -> bool) (t : list Event) : nat :=
  length (List.filter p t).

(** The ways the multiplexer ends: a chain has been run, the request
    has been refused, or a collector or a filter has panicked. *)
Definition multiplexed (ClientWrite : Z -> bool) (s : Server) (r : Msg)
    (o : Outcome) : Prop :=
  (∃ chain ctx', o = serveChain ClientWrite s r chain ctx' ScrubWriter) ∨
  o = returns (errorAndMetricsFunc (Addr s) ScrubWriter r RcodeRefused) ∨
  (∃ v, o = panics v).

(** *** The multiplexer as the specification words it

    A zone name matches a query name when it is the root, the name
    itself, or what is left of the name after removing leading labels;
    the candidates run "from the full name down to and including the
    root label". *)
Definition spec_matches (z q : string) : Prop :=
  z = "."%string ∨ z = q ∨ ∃ p, q = (p +:+ "." +:+ z)%string.

(** [h] is registered under [z] and its filters all pass. *)
Definition spec_passing (s : Server) (r : Msg) (z : string) (h : Config)
    : Prop :=
  ∃ cfgs, zones s !! z = Some cfgs ∧ h ∈ cfgs ∧
          ∀ ctx, passAllFilterFuncs ctx (FilterFuncs h) r = Ok true.

(** "The Config under the longest matching suffix whose filters all
    pass is dispatched, except for DS, where the one under the shortest
    is", for one request. *)
Definition spec_dispatch (ClientWrite : Z -> bool) (s : Server) (r : Msg)
    (ctx : Ctx) : Prop :=
  ∀ q0 rest z h,
    Questions r = q0 :: rest →
    admitted s r q0 →
    spec_matches z (ToLower (QName q0)) →
    spec_passing s r z h →
    (∀ z' h', spec_matches z' (ToLower (QName q0)) →
              spec_passing s r z' h' →
              if Qtype q0 =? TypeDS
              then (String.length z ≤ String.length z')%nat
              else (String.length z' ≤ String.length z)%nat) →
    dispatchesTo ClientWrite s r (ServeDNS ClientWrite s r ctx) h.

(** The walk reaches the zone name [z]: the Configs under the suffixes
    before it let the walk go on. *)
Definition reaches (ClientWrite : Z -> bool) (s : Server) (r : Msg)
    (ds : bool) (q : string) (ctx : Ctx) (z : string) : Prop :=
  ∃ before after ctx' dshandler,
    walkSuffixes q = before ++ z :: after ∧
    zoneLoop ClientWrite s r ds ScrubWriter (configsAt s before) ctx None
      = Next ctx' dshandler.

(** "A walk that reaches a zone name whose Config list contains a
    Config without a chain answers REFUSED at once", for one request. *)
Definition spec_refusesEmptyZone (ClientWrite : Z -> bool) (s : Server)
    (r : Msg) (ctx : Ctx) : Prop :=
  ∀ q0 rest z cfgs h,
    Questions r = q0 :: rest →
    admitted s r q0 →
    reaches ClientWrite s r (Qtype q0 =? TypeDS) (ToLower (QName q0))
      ctx z →
    zones s !! z = Some cfgs →
    h ∈ cfgs →
    pluginChain h = None →
    ServeDNS ClientWrite s r ctx = Some (refused s r ScrubWriter).

(** "A request of another class than Internet is answered REFUSED if
    and only if no chaos-enabling plugin is present", for one group and
    one request. *)
Definition answersRefused (r : Msg) (o : option Outcome) : Prop :=
  ∃ t res w, o = Some (t, res) ∧
             EvWrite w (ErrorReply r RcodeRefused) ∈ t.

Definition spec_classGate (ClientWrite : Z -> bool) (addr : string)
    (group : list Config) (r : Msg) (ctx : Ctx) : Prop :=
  ∀ q0 rest,
    Questions r = q0 :: rest →
    Qclass q0 ≠ ClassINET →
    (answersRefused r (ServeDNS ClientWrite (NewServer addr group) r ctx)
     ↔ hasChaosPlugin group = false).

(** ** Sample plugins, Configs and requests *)

(** The rcodes after which the server still has to answer, as an
    instance of [ClientWrite]. *)
Definition sampleClientWrite (rc : Z) : bool :=
  negb ((rc =? RcodeServerFailure) || (rc =? RcodeRefused) ||
        (rc =? 1) || (rc =? 4)).

(** A plugin that writes one answer carrying its name. *)
Definition answering (name : string) : PluginFunc := fun _ =>
  {| Name := name;
     HServeDNS := fun _ _ _ =>
       ([mkPluginMsg RcodeSuccess name], Ok RcodeSuccess);
     asMetadataCollector := None;
     asTrace := false |}.

(** A plugin that is a MetadataCollector and hands on to the next. *)
Definition collecting (name : string) : PluginFunc := fun next =>
  {| Name := name;
     HServeDNS := fun ctx w r =>
       match next with
       | Some h => HServeDNS h ctx w r
       | None => ([], Ok RcodeServerFailure)
       end;
     asMetadataCollector :=
       Some (fun ctx _ =>
               Ok (WithValue ctx (MetadataKey name) (VString name)));
     asTrace := false |}.

(** A plugin that panics after writing [written]. *)
Definition panicking (written : list PluginMsg) : PluginFunc := fun _ =>
  {| Name := "panicking";
     HServeDNS := fun _ _ _ => (written, Panic "boom");
     asMetadataCollector := None;
     asTrace := false |}.

Definition sampleConfig (zone : string) (plugins : list PluginFunc)
    : Config :=
  {| Zone := zone; Debug := false; Stacktrace := false;
     ReadTimeout := 0; WriteTimeout := 0; IdleTimeout := 0;
     TsigSecret := ∅; Plugin := plugins; FilterFuncs := [];
     ViewName := EmptyString; pluginChain := None; metaCollector := None;
     registry := [] |}.

Definition withReadTimeout (c : Config) (d : Z) : Config :=
  {| Zone := Zone c; Debug := Debug c; Stacktrace := Stacktrace c;
     ReadTimeout := d; WriteTimeout := WriteTimeout c;
     IdleTimeout := IdleTimeout c; TsigSecret := TsigSecret c;
     Plugin := Plugin c; FilterFuncs := FilterFuncs c;
     ViewName := ViewName c; pluginChain := pluginChain c;
     metaCollector := metaCollector c; registry := registry c |}.

Definition withTsig (c : Config) (m : gmap string string) : Config :=
  {| Zone := Zone c; Debug := Debug c; Stacktrace := Stacktrace c;
     ReadTimeout := ReadTimeout c; WriteTimeout := WriteTimeout c;
     IdleTimeout := IdleTimeout c; TsigSecret := m;
     Plugin := Plugin c; FilterFuncs := FilterFuncs c;
     ViewName := ViewName c; pluginChain := pluginChain c;
     metaCollector := metaCollector c; registry := registry c |}.

Definition withFilters (c : Config) (ffs : list FilterFunc) : Config :=
  {| Zone := Zone c; Debug := Debug c; Stacktrace := Stacktrace c;
     ReadTimeout := ReadTimeout c; WriteTimeout := WriteTimeout c;
     IdleTimeout := IdleTimeout c; TsigSecret := TsigSecret c;
     Plugin := Plugin c; FilterFuncs := ffs;
     ViewName := ViewName c; pluginChain := pluginChain c;
     metaCollector := metaCollector c; registry := registry c |}.

Definition query (name : string) (qtype qclass : Z) : Msg :=
  {| Id := 1; Questions := [mkQuestion name qtype qclass];
     EdnsVersion := None |}.

Definition sampleAddr : string := "dns://.:53".

(** [example.com.] served by chain A, the root zone by chain B. *)
Definition serverAB : Server :=
  NewServer sampleAddr
    [sampleConfig "example.com." [answering "A"];
     sampleConfig "." [answering "B"]].

(** [example.com.] declared twice: with chain A, then without
    plugins. *)
Definition serverAEmpty : Server :=
  NewServer sampleAddr
    [sampleConfig "example.com." [answering "A"];
     sampleConfig "example.com." []].

(** The root zone declared without plugins, then with chain B. *)
Definition serverRootEmptyB : Server :=
  NewServer sampleAddr
    [sampleConfig "." []; sampleConfig "." [answering "B"]].

(** A group with a chaos-enabling plugin on [example.org.]. *)
Definition chaosGroup : list Config :=
  [sampleConfig "example.org." [answering "chaos"]].

(** Two collectors, registered as [first] and then [second]. *)
Definition twoCollectors : Config :=
  sampleConfig "example.org." [collecting "first"; collecting "second"].

(** What a bookmarked collector adds to the empty context. *)
Definition probe (mc : option MetadataCollector) : Result Ctx :=
  match mc with
  | Some collect => collect Background (query "." TypeA ClassINET)
  | None => Ok Background
  end.

(** [example.com.] served by chain A, [com.] by chain C. *)
Definition serverAC : Server :=
  NewServer sampleAddr
    [sampleConfig "example.com." [answering "A"];
     sampleConfig "com." [answering "C"]].

(** [example.com.] declared without plugins, the root zone served by
    chain B. *)
Definition serverEmptyB : Server :=
  NewServer sampleAddr
    [sampleConfig "example.com." [];
     sampleConfig "." [answering "B"]].

(** A sample Config as [NewServer] stores it. *)
Definition stored (zone : string) (plugins : list PluginFunc) : Config :=
  compiled (emptyServer sampleAddr) (sampleConfig zone plugins).

Definition answer (name : string) : Outcome :=
  returns [EvWrite ScrubWriter (PluginReply (mkPluginMsg RcodeSuccess name))].

(** What the body of ServeDNS leaves behind never counts a panic, and
    a body that panics has not synthesized a SERVFAIL answer. *)
Definition quiet (o : Outcome) : Prop :=
  count isPanicInc (fst o) = 0%nat ∧
  ∀ v, snd o = Panic v → count isServfail (fst o) = 0%nat.

Definition withDebug (c : Config) : Config :=
  {| Zone := Zone c; Debug := true; Stacktrace := Stacktrace c;
     ReadTimeout := ReadTimeout c; WriteTimeout := WriteTimeout c;
     IdleTimeout := IdleTimeout c; TsigSecret := TsigSecret c;
     Plugin := Plugin c; FilterFuncs := FilterFuncs c;
     ViewName := ViewName c; pluginChain := pluginChain c;
     metaCollector := metaCollector c; registry := registry c |}.

(** [example.com.] served by a chain that writes one message and then
    panics; outside debug mode and in debug mode. *)
Definition panicConfig : Config :=
  sampleConfig "example.com." [panicking [mkPluginMsg RcodeSuccess "partial"]].

Definition serverPanic : Server := NewServer sampleAddr [panicConfig].

Definition serverPanicDebug : Server :=
  NewServer sampleAddr [withDebug panicConfig].

(** [www.example.com.] behind a filter that never passes,
    [example.com.] served by chain A. *)
Definition never : FilterFunc := fun _ _ => Ok false.

Definition filteredConfig : Config :=
  withFilters (sampleConfig "www.example.com." [answering "W"]) [never].

Definition serverFiltered : Server :=
  NewServer sampleAddr
    [filteredConfig; sampleConfig "example.com." [answering "A"]].

(** [example.com.] served by chain A, its parent [com.] declared
    without plugins. *)
Definition serverAEmptyParent : Server :=
  NewServer sampleAddr
    [sampleConfig "example.com." [answering "A"];
     sampleConfig "com." []].

(** [example.com.] behind a filter that panics. *)
Definition exploding : FilterFunc := fun _ _ => Panic "filter".

Definition serverExploding : Server :=
  NewServer sampleAddr
    [withFilters (sampleConfig "example.com." [answering "A"]) [exploding]].

(** ** Further notions: the compiled chain, the tracer, the answers
       the server builds *)

(** The chain that a constructor list stands for: the first plugin
    wraps the chain of the others, the last one wraps nil. *)
Fixpoint composed (ps : list PluginFunc) : option Handler :=
  match ps with
  | [] => None
  | p :: ps' => Some (p (composed ps'))
  end.

(** A link that [NewServer] takes as the server's tracer: it is
    named [trace] and implements [trace.Trace]. *)
Definition isTraceLink (h : Handler) : bool :=
  String.eqb (Name h) "trace" && asTrace h.

(** [Tracer()]: nil without a bookmarked trace plugin, else the
    plugin's tracer. *)
Definition Tracer (s : Server) : option Handler := trace s.

(** An answer that the server builds itself: by [errorFunc] or
    [errorAndMetricsFunc], or the BADVERS message. *)
Definition isServerBuilt (e : Event) : bool :=
  match e with
  | EvWrite _ (ErrorReply _ _) => true
  | EvWrite _ (BadVersReply _) => true
  | _ => false
  end.

Definition isReport (e : Event) : bool :=
  match e with EvReport _ _ => true | _ => false end.

(** A report to the metrics is one of a SERVFAIL or of a REFUSED. *)
Definition droppedReport (e : Event) : Prop :=
  match e with
  | EvReport _ rc => rc = RcodeServerFailure ∨ rc = RcodeRefused
  | _ => True
  end.

(** A plugin that answers with rcode [rc] without writing. *)
Definition returning (name : string) (rc : Z) : PluginFunc := fun _ =>
  {| Name := name;
     HServeDNS := fun _ _ _ => ([], Ok rc);
     asMetadataCollector := None;
     asTrace := false |}.

(** A [trace] plugin that hands on to the next plugin. *)
Definition tracing (name : string) : PluginFunc := fun next =>
  {| Name := name;
     HServeDNS := fun ctx w r =>
       match next with
       | Some h => HServeDNS h ctx w r
       | None => ([], Ok RcodeServerFailure)
       end;
     asMetadataCollector := None;
     asTrace := true |}.

(** What holds of every outcome of ServeDNS: at most one answer
    built by the server, no report without one, reports of SERVFAIL
    and REFUSED only, and outside debug mode no built answer only
    after a chain has returned a code that [ClientWrite] accepts. *)
Definition wellAnswered (ClientWrite : Z -> bool) (s : Server) (r : Msg)
    (o : Outcome) : Prop :=
  (count isServerBuilt (fst o) ≤ 1)%nat ∧
  (count isReport (fst o) ≤ count isServerBuilt (fst o))%nat ∧
  Forall droppedReport (fst o) ∧
  (debug s = false →
   count isServerBuilt (fst o) = 0%nat →
   ∃ chain ctx' written rc,
     HServeDNS chain ctx' ScrubWriter r = (written, Ok rc) ∧
     ClientWrite rc = true).

(** ** Listen and ListenPacket *)

(** A call that returns a value or an error. *)
Inductive Fallible (A : Type) :=
  | Value (a : A)
  | Failure (err : string).
Arguments Value {A} a.
Arguments Failure {A} err.

(** What [tailscale.Tailscale] points to once the tailscale plugin is
    set up.  Its methods [Listen] and [ListenPacket] are declared
    elsewhere in package [tailscale]; here they are what they return
    for a network name and an address. *)
Record TailscaleHandle := mkTailscaleHandle {
  tsListen : string -> string -> Fallible Listener;
  tsListenPacket : string -> string -> Fallible Listener
}.

Section Listening.

(** [transport.DNS], the scheme of plain DNS addresses; it is declared
    in package [transport]. *)
Variable DNS : string.

(** [tailscale.Tailscale], nil before the plugin is set up. *)
Variable Tailscale : option TailscaleHandle.

(** [s.Addr[len(transport.DNS+"://"):]]; slicing beyond the end of a
    string panics. *)
Definition hostPort (s : Server) : Result string :=
  if len (Addr s) <? len (DNS +:+ "://")
  then Panic "slice bounds out of range"
  else Ok (sliceFrom (Addr s) (len (DNS +:+ "://"))).

Definition Listen (s : Server) : Result (Fallible Listener) :=
  match Tailscale with
  | None =>
      Ok (Failure ("server: tailscale plugin not initialized and already trying to listen on "
                   +:+ Addr s))
  | Some ts =>
      match hostPort s with
      | Panic v => Panic v
      | Ok a => Ok (tsListen ts "tcp" a)
      end
  end.

Definition ListenPacket (s : Server) : Result (Fallible Listener) :=
  match Tailscale with
  | None => Ok (Failure "server: tailscale plugin not initialized")
  | Some ts =>
      match hostPort s with
      | Panic v => Panic v
      | Ok a => Ok (tsListenPacket ts "udp" a)
      end
  end.

End Listening.

(** [WrapListener] and [Address]. *)
Definition WrapListener (s : Server) (ln : Listener) : Listener := ln.

Definition Address (s : Server) : string := Addr s.

(** A tailscale handle that echoes the address it is asked to bind:
    the listener it returns fails to shut down with that address as
    the error. *)
Definition echoHandle : TailscaleHandle :=
  {| tsListen := fun _ a => Value (mkListener (Some a));
     tsListenPacket := fun _ a => Value (mkListener (Some a)) |}.

(** * Package tsproxy ([tsproxy.start], [tsproxy.close]) *)

Module Tsproxy.

Record channel := mkChannel {
  protocol : string;
  myPort : Z;
  target : string;
  targetPort : Z
}.

(** The two [log.Infof] lines of [start], with the number they
    print. *)
Inductive LogLine :=
  | Starting (channels : nat)
  | Started (proxies : nat).

Section Proxies.

(** What [closeable] values and [*tsnet.Server] values are, and the
    constructors [NewUdpProxy] and [NewTcpProxy], are declared in other
    files of the package. *)
Variable closeable : Type.
Variable tsnetServer : Type.
Variable NewUdpProxy : option tsnetServer -> Z -> string -> Z -> closeable.
Variable NewTcpProxy : option tsnetServer -> Z -> string -> Z -> closeable.

(** [tailscale.Tailscale]: nil, or a handle with its [Server] field
    (itself nil when the tailscale of the system is used). *)
Variable Tailscale : option (option tsnetServer).

(** The [switch channel.protocol] of the loop.  Reading
    [tailscale.Tailscale.Server] through a nil [Tailscale] is a nil
    pointer dereference. *)
Definition newProxy (c : channel) : Result closeable :=
  if String.eqb (protocol c) "udp" then
    match Tailscale with
    | Some srv => Ok (NewUdpProxy srv (myPort c) (target c) (targetPort c))
    | None => Panic "invalid memory address or nil pointer dereference"
    end
  else if String.eqb (protocol c) "tcp" then
    match Tailscale with
    | Some srv => Ok (NewTcpProxy srv (myPort c) (target c) (targetPort c))
    | None => Panic "invalid memory address or nil pointer dereference"
    end
  else Panic ("wat " +:+ protocol c).

(** [for _, channel := range channels], on [proxy.proxies]. *)
Fixpoint startLoop (proxies : list closeable) (channels : list channel)
    : list closeable * Result unit :=
  match channels with
  | [] => (proxies, Ok tt)
  | c :: rest =>
      match newProxy c with
      | Ok p => startLoop (proxies ++ [p]) rest
      | Panic v => (proxies, Panic v)
      end
  end.

(** What a call of [start] leaves: [proxy.proxies], the lines logged,
    and whether it returned. *)
Record Run := mkRun {
  proxies : list closeable;
  logged : list LogLine;
  outcome : Result unit
}.

Definition start (ps : list closeable) (channels : list channel) : Run :=
  let '(ps', res) := startLoop ps channels in
  {| proxies := ps';
     logged :=
       Starting (length channels)
       :: match res with
          | Ok _ => [Started (length ps')]
          | Panic _ => []
          end;
     outcome := res |}.

(** [close]: the proxies on which [Close()] is called, in order. *)
Fixpoint close (ps : list closeable) : list closeable :=
  match ps with
  | [] => []
  | p :: ps' => p :: close ps'
  end.

(** The proxy that [start] makes for a channel of a supported
    protocol, with tailscale set up. *)
Definition proxyFor (srv : option tsnetServer) (c : channel) : closeable :=
  if String.eqb (protocol c) "udp"
  then NewUdpProxy srv (myPort c) (target c) (targetPort c)
  else NewTcpProxy srv (myPort c) (target c) (targetPort c).

End Proxies.

Definition supported (c : channel) : Prop :=
  protocol c = "udp"%string ∨ protocol c = "tcp"%string.

(** Proxies as what they were made from, for examples. *)
Inductive SampleProxy :=
  | Udp (port : Z) (target : string) (targetPort : Z)
  | Tcp (port : Z) (target : string) (targetPort : Z).

End Tsproxy.

(** * Package tsbind ([setup]) *)

Module Tsbind.

(** [setup], on [config.ListenHosts].  [tailscale] is
    [tailscale.Tailscale] with what its client answers to
    [StatusWithoutPeers]: the tailscale addresses, rendered by
    [ip.String()], or an error.  The result is the new
    [config.ListenHosts] and the error returned ([None] is nil). *)
Definition setup (tailscale : option (Fallible (list string)))
    (ListenHosts : list string) : list string * option string :=
  match tailscale with
  | None => (ListenHosts, Some "tsbind: tailscale not initialized"%string)
  | Some (Failure err) =>
      (ListenHosts, Some ("tailscale status: " +:+ err)%string)
  | Some (Value ips) =>
      (fold_left (fun all ip => all ++ [ip]) ips [], None)
  end.

End Tsbind.

(** * Package tailscale ([start]) *)

Module Tailscale.

(** The fields of [tsnet.Server] that [start] sets, apart from the two
    log functions. *)
Record tsnetServer := mkTsnetServer {
  Dir : string;
  Hostname : string;
  RunWebClient : bool
}.

(** A [*tailscale.LocalClient]: the one of the system's tailscale, or
    the one of an embedded server. *)
Inductive LocalClient :=
  | systemClient
  | serverClient (srv : tsnetServer).

Record TailscaleServer := mkTailscaleServer {
  Server : option tsnetServer;
  Client : option LocalClient
}.

(** What [start] does to the outside, in order. *)
Inductive Effect :=
  | MkdirAll (dir : string) (mode : Z)
  | ServerStart (srv : tsnetServer)
  | LogWaiting
  | Sleep (d : Z).

(** What the outside answers: the error of the [Status] call of
    [systemTailscaleRunning], [os.UserConfigDir], the error of
    [os.MkdirAll], of [Server.Start] and of [Server.LocalClient]
    ([None] is nil), and the [BackendState] or error of the successive
    [Status] calls of the waiting loop. *)
Record World := mkWorld {
  systemStatus : option string;
  userConfigDir : Fallible string;
  mkdirAll : string -> option string;
  serverStart : tsnetServer -> option string;
  localClient : tsnetServer -> option string;
  statuses : list (Fallible string)
}.

Definition systemTailscaleRunning (w : World) : bool :=
  match systemStatus w with None => true | Some _ => false end.

(** The loop [for { status, err := Tailscale.Client.Status(...) ... }]:
    its effects, and the error it returns ([Some None] is a return of
    nil); [None] when the answers given run out while it is still
    waiting. *)
Fixpoint waitRunning (answers : list (Fallible string))
    : list Effect * option (option string) :=
  match answers with
  | [] => ([], None)
  | Failure err :: _ => ([], Some (Some err))
  | Value state :: rest =>
      if String.eqb state "Running" then ([], Some None)
      else
        let '(effects, res) := waitRunning rest in
        (LogWaiting :: Sleep second :: effects, res)
  end.

(** What a call of [start] leaves: the global [Tailscale], the
    effects, and the error returned. *)
Record Started := mkStarted {
  Tailscale : option TailscaleServer;
  effects : list Effect;
  result : option (option string)
}.

Section Start.

(** [filepath.Join] of three elements. *)
Variable Join : string -> string -> string -> string.

Definition waitWith (ts : TailscaleServer) (before : list Effect)
    (w : World) : Started :=
  let '(effects, res) := waitRunning (statuses w) in
  {| Tailscale := Some ts; effects := before ++ effects; result := res |}.

Definition failed (ts : TailscaleServer) (before : list Effect)
    (err : string) : Started :=
  {| Tailscale := Some ts; effects := before; result := Some (Some err) |}.

Definition start (w : World) (hostname : string) : Started :=
  if systemTailscaleRunning w then
    waitWith {| Server := None; Client := Some systemClient |} [] w
  else
    match userConfigDir w with
    | Failure err =>
        failed {| Server := None; Client := None |} []
          ("failed to obtain user config dir: " +:+ err)
    | Value globalConfigDir =>
        let configDir := Join globalConfigDir "coredns-tailscale" hostname in
        match mkdirAll w configDir with
        | Some err =>
            failed {| Server := None; Client := None |}
              [MkdirAll configDir 448]
              ("failed to create config directory: " +:+ err)
        | None =>
            let srv := {| Dir := configDir; Hostname := hostname;
                          RunWebClient := true |} in
            match serverStart w srv with
            | Some err =>
                failed {| Server := Some srv; Client := None |}
                  [MkdirAll configDir 448; ServerStart srv] err
            | None =>
                match localClient w srv with
                | Some err =>
                    failed {| Server := Some srv; Client := None |}
                      [MkdirAll configDir 448; ServerStart srv] err
                | None =>
                    waitWith {| Server := Some srv;
                                Client := Some (serverClient srv) |}
                      [MkdirAll configDir 448; ServerStart srv] w
                end
            end
        end
    end.

End Start.

Definition isSleep (e : Effect) : bool :=
  match e with Sleep _ => true | _ => false end.

Definition touchesDisk (e : Effect) : bool :=
  match e with MkdirAll _ _ | ServerStart _ => true | _ => false end.

(** A path join for examples. *)
Definition sampleJoin (a b c : string) : string :=
  (a +:+ "/" +:+ b +:+ "/" +:+ c)%string.

End Tailscale.

(** A world without the tailscale of the system, in which the
    embedded server starts and reports [Starting] and then
    [Running]. *)
Definition sampleWorld : Tailscale.World :=
  {| Tailscale.systemStatus := Some "connection refused"%string;
     Tailscale.userConfigDir := Value "/home/dns/.config"%string;
     Tailscale.mkdirAll := fun _ => None;
     Tailscale.serverStart := fun _ => None;
     Tailscale.localClient := fun _ => None;
     Tailscale.statuses :=
       [Value "Starting"%string; Value "Running"%string] |}.

(** * Properties of NewServer *)

Lemma last_cons_default {A} (x : A) (l : list A) :
  last (x :: l) = Some (default x (last l)).
Proof.
  revert x. induction l as [|y l IH]; intros x; [reflexivity|].
  change (last (x :: y :: l)) with (last (y :: l)).
  rewrite (IH y). reflexivity.
Qed.

Lemma default_last_cons {A} (d x : A) (l : list A) :
  default d (last (x :: l)) = default x (last l).
Proof. rewrite last_cons_default. reflexivity. Qed.

Lemma lastSpecified_cons (d v : Z) (vals : list Z) :
  default d (last (specifiedTimeouts (v :: vals)))
  = default (if v =? 0 then d else v) (last (specifiedTimeouts vals)).
Proof.
  unfold specifiedTimeouts. rewrite filter_cons.
  destruct (Z.eqb_spec v 0) as [->|Hv].
  - rewrite decide_False by (intros H; now apply H). reflexivity.
  - rewrite decide_True by assumption. apply default_last_cons.
Qed.

Section Aggregates.

Variable field : Config -> Z.
Variable get : Server -> Z.
Hypothesis get_addSite : forall s c,
  get (addSite s c) = if field c =? 0 then get s else field c.

(** A timeout of the server is the last non-zero value in the group. *)
Lemma timeout_fold (group : list Config) (s : Server) :
  get (fold_left addSite group s)
  = default (get s) (last (specifiedTimeouts (map field group))).
Proof.
  revert s. induction group as [|c group IH]; intros s; [reflexivity|].
  cbn [fold_left map]. rewrite IH, get_addSite.
  symmetry. apply lastSpecified_cons.
Qed.

End Aggregates.

(** C5, as the code has it: each of [readTimeout], [writeTimeout] and
    [idleTimeout] of [NewServer addr group] is the value of the last
    Config of the group that specifies (non-zero) that timeout, or the
    default (3s, 5s, 10s) when no Config specifies it. *)
Theorem NewServer_timeouts_last_specified (addr : string)
    (group : list Config) :
  readTimeout (NewServer addr group)
    = default (3 * second)
        (last (specifiedTimeouts (map ReadTimeout group))) ∧
  writeTimeout (NewServer addr group)
    = default (5 * second)
        (last (specifiedTimeouts (map WriteTimeout group))) ∧
  idleTimeout (NewServer addr group)
    = default (10 * second)
        (last (specifiedTimeouts (map IdleTimeout group))).
Proof.
  unfold NewServer. repeat split.
  - apply (timeout_fold ReadTimeout readTimeout). reflexivity.
  - apply (timeout_fold WriteTimeout writeTimeout). reflexivity.
  - apply (timeout_fold IdleTimeout idleTimeout). reflexivity.
Qed.

(** C5, as stated, fails: with read timeouts of 10s and then 2s the
    server reads with 2s, not with the maximum. *)
Lemma NewServer_timeouts_not_max :
  let group := [withReadTimeout (sampleConfig "a." []) (10 * second);
                withReadTimeout (sampleConfig "b." []) (2 * second)] in
  readTimeout (NewServer sampleAddr group) = 2 * second ∧
  spec_maxTimeout (3 * second) (map ReadTimeout group) = 10 * second ∧
  readTimeout (NewServer sampleAddr group)
    ≠ spec_maxTimeout (3 * second) (map ReadTimeout group).
Proof.
  cbv zeta. split; [reflexivity|]. split; [reflexivity|].
  vm_compute. discriminate.
Qed.

Lemma server_fold (group : list Config) (s : Server) :
  server (fold_left addSite group s) = server s.
Proof.
  revert s. induction group as [|c group IH]; intros s; [reflexivity|].
  cbn [fold_left]. rewrite IH. reflexivity.
Qed.

Lemma Addr_fold (group : list Config) (s : Server) :
  Addr (fold_left addSite group s) = Addr s.
Proof.
  revert s. induction group as [|c group IH]; intros s; [reflexivity|].
  cbn [fold_left]. rewrite IH. reflexivity.
Qed.

Lemma Addr_NewServer (addr : string) (group : list Config) :
  Addr (NewServer addr group) = addr.
Proof. unfold NewServer. apply Addr_fold. Qed.

(** Configs that do not define [k] leave the secret under [k] alone. *)
Lemma tsig_fold_undefined (k : string) (group : list Config) (s : Server) :
  Forall (fun c => TsigSecret c !! k = None) group →
  tsigSecret (fold_left addSite group s) !! k = tsigSecret s !! k.
Proof.
  intros Hnone. revert s.
  induction Hnone as [|c group Hc _ IH]; intros s; [reflexivity|].
  cbn [fold_left]. rewrite IH. cbn [addSite tsigSecret].
  now apply lookup_union_r.
Qed.

(** C10: the merged [tsigSecret] map holds, under a key, the secret of
    the latest Config of the group that defines it, and [Serve] and
    [ServePacket] attach this one map to the stream server and to the
    datagram server. *)
Theorem tsig_latest_config_wins (addr : string) (g1 g2 : list Config)
    (c : Config) (k v : string) (l p : Listener) :
  TsigSecret c !! k = Some v →
  Forall (fun c' => TsigSecret c' !! k = None) g2 →
  let s := NewServer addr (g1 ++ c :: g2) in
  tsigSecret s !! k = Some v ∧
  ∃ dt du,
    server (ServePacket (Serve s l) p) = [Some dt; Some du] ∧
    Net dt = "tcp"%string ∧ Net du = "udp"%string ∧
    SrvTsigSecret dt = tsigSecret s ∧ SrvTsigSecret du = tsigSecret s.
Proof.
  intros Hk Hlater s. split.
  - subst s. unfold NewServer. rewrite fold_left_app. cbn [fold_left].
    rewrite tsig_fold_undefined by assumption.
    cbn [addSite tsigSecret]. now apply lookup_union_Some_l.
  - assert (Hslots : server s = [None; None]).
    { subst s. unfold NewServer. now rewrite server_fold. }
    unfold ServePacket, Serve, setSlot. cbn [server tsigSecret].
    rewrite Hslots. cbn. eexists _, _. repeat split.
Qed.

(** C10 on a group in which two Configs define the key [key.]. *)
Lemma tsig_latest_config_wins_witness :
  let old := withTsig (sampleConfig "a." []) {[ "key."%string := "old"%string ]} in
  let new := withTsig (sampleConfig "b." []) {[ "key."%string := "new"%string ]} in
  let s := NewServer sampleAddr ([old] ++ new :: [sampleConfig "c." []]) in
  tsigSecret s !! "key."%string = Some "new"%string ∧
  ∃ dt du,
    server (ServePacket (Serve s (mkListener None)) (mkListener None))
      = [Some dt; Some du] ∧
    Net dt = "tcp"%string ∧ Net du = "udp"%string ∧
    SrvTsigSecret dt = tsigSecret s ∧ SrvTsigSecret du = tsigSecret s.
Proof.
  cbv zeta.
  apply (tsig_latest_config_wins sampleAddr
           [withTsig (sampleConfig "a." []) {[ "key."%string := "old"%string ]}]
           [sampleConfig "c." []]
           (withTsig (sampleConfig "b." []) {[ "key."%string := "new"%string ]})
           "key." "new").
  - vm_compute. reflexivity.
  - repeat constructor.
Defined.

(** The plugin loop, link by link. *)
Lemma compileLoop_metaCollector (ps : list PluginFunc) (st : Compile) :
  cMetaCollector (compileLoop ps st)
  = match last (omap asMetadataCollector (chainLinks ps (stack st))) with
    | Some mdc => Some mdc
    | None => cMetaCollector st
    end.
Proof.
  revert st. induction ps as [|p ps IH]; intros st; [reflexivity|].
  cbn [compileLoop chainLinks]. rewrite IH.
  cbn [compileStep stack cMetaCollector omap list_omap].
  destruct (asMetadataCollector (p (stack st))) as [mdc|]; [|reflexivity].
  rewrite last_cons_default.
  now destruct (last _).
Qed.

(** C6, as the code has it: when the chain of a Config has a
    MetadataCollector among its links, the bookmarked [metaCollector] is
    the last one met while the constructor list is traversed in reverse
    registration order, that is the first collector in registration
    order; one collector is bookmarked. *)
Theorem metaCollector_first_registered (s : Server) (site : Config) :
  collectorsOf site ≠ [] →
  metaCollector (compiled s site) = last (collectorsOf site) ∧
  metaCollector (compiled s site) = head (reverse (collectorsOf site)) ∧
  ∃ mdc, metaCollector (compiled s site) = Some mdc.
Proof.
  intros Hsome.
  assert (Hlast : metaCollector (compiled s site) = last (collectorsOf site)).
  { unfold compiled, compilePlugins. cbn [setChain metaCollector].
    rewrite compileLoop_metaCollector. cbn [stack cMetaCollector].
    fold (linksOf site). fold (collectorsOf site).
    destruct (last (collectorsOf site)) eqn:E; [reflexivity|].
    now apply last_None in E. }
  split; [exact Hlast|]. split.
  - now rewrite head_reverse.
  - rewrite Hlast. destruct (last (collectorsOf site)) eqn:E; [eauto|].
    now apply last_None in E.
Qed.

(** C6 on a Config with two collectors. *)
Lemma metaCollector_first_registered_witness :
  metaCollector (compiled (emptyServer sampleAddr) twoCollectors)
    = last (collectorsOf twoCollectors) ∧
  metaCollector (compiled (emptyServer sampleAddr) twoCollectors)
    = head (reverse (collectorsOf twoCollectors)) ∧
  ∃ mdc, metaCollector (compiled (emptyServer sampleAddr) twoCollectors)
         = Some mdc.
Proof.
  apply (metaCollector_first_registered (emptyServer sampleAddr)
           twoCollectors).
  vm_compute. discriminate.
Defined.

(** C6, as stated, fails: of two collectors the reverse pass meets
    [second] first, and the bookmark ends up on [first]. *)
Lemma metaCollector_not_first_met :
  probe (head (collectorsOf twoCollectors))
    = Ok [(MetadataKey "second", VString "second")] ∧
  probe (metaCollector (compiled (emptyServer sampleAddr) twoCollectors))
    = Ok [(MetadataKey "first", VString "first")] ∧
  metaCollector (compiled (emptyServer sampleAddr) twoCollectors)
    ≠ head (collectorsOf twoCollectors).
Proof.
  split; [reflexivity|]. split; [reflexivity|].
  intros H. apply (f_equal probe) in H. vm_compute in H. discriminate.
Qed.

Lemma compileLoop_classChaos (ps : list PluginFunc) (st : Compile) :
  cClassChaos (compileLoop ps st)
  = cClassChaos st ||
    existsb (fun h => inEnableChaos (Name h)) (chainLinks ps (stack st)).
Proof.
  revert st. induction ps as [|p ps IH]; intros st.
  - cbn. now rewrite orb_false_r.
  - cbn [compileLoop chainLinks existsb]. rewrite IH.
    cbn [compileStep stack cClassChaos].
    destruct (inEnableChaos (Name (p (stack st)))), (cClassChaos st);
      reflexivity.
Qed.

(** [classChaos] is set exactly when a chaos-enabling plugin is in the
    group. *)
Lemma classChaos_fold (group : list Config) (s : Server) :
  classChaos (fold_left addSite group s)
  = classChaos s || hasChaosPlugin group.
Proof.
  revert s. induction group as [|c group IH]; intros s.
  - cbn. now rewrite orb_false_r.
  - cbn [fold_left]. rewrite IH. cbn [addSite classChaos].
    unfold compilePlugins. rewrite compileLoop_classChaos.
    cbn [cClassChaos stack]. fold (linksOf c).
    cbn [hasChaosPlugin existsb]. now rewrite orb_assoc.
Qed.

Lemma classChaos_NewServer (addr : string) (group : list Config) :
  classChaos (NewServer addr group) = hasChaosPlugin group.
Proof. unfold NewServer. now rewrite classChaos_fold. Qed.

(** * The label stepper and the suffix walk *)

Lemma nextLabelFrom_bounds (q : string) (n : nat) (i off' : Z) (e : bool) :
  nextLabelFrom q n i = (off', e) →
  i < off' ∧ (e = false → off' ≤ i + Z.of_nat n).
Proof.
  revert i. induction n as [|n IH]; intros i H; cbn [nextLabelFrom] in H.
  - injection H as <- <-. split; [lia|discriminate].
  - destruct (labelBreak q i).
    + injection H as <- <-. split; lia.
    + apply IH in H. destruct H as [H1 H2]. split; [lia|].
      intros He. specialize (H2 He). lia.
Qed.

(** A step that does not end the walk moves the offset forward and
    leaves it inside the name. *)
Lemma NextLabel_progress (q : string) (off off' : Z) :
  NextLabel q off = (off', false) → off < off' ∧ off' < len q.
Proof.
  unfold NextLabel. destruct (String.eqb q EmptyString); [discriminate|].
  intros H. apply nextLabelFrom_bounds in H. destruct H as [H1 H2].
  specialize (H2 eq_refl). split; [exact H1|]. lia.
Qed.

Section Walk.

Variable ClientWrite : Z -> bool.
Variable s : Server.
Variable r : Msg.

Local Abbreviation zoneL := (zoneLoop ClientWrite s r).
Local Abbreviation walkL := (walkLoop ClientWrite s r).
Local Abbreviation rootL := (rootLoop ClientWrite s r).
Local Abbreviation serveC := (serveChain ClientWrite s r).

(** The walk ends within one iteration per byte of the name left,
    and one more. *)
Lemma walkLoop_total (ds : bool) (w : Writer) (q : string) (fuel : nat)
    (off : Z) (ctx : Ctx) (dshandler : option Config) :
  off ≤ len q → len q - off < Z.of_nat fuel →
  ∃ exit, walkL fuel ds w q off ctx dshandler = Some exit.
Proof.
  revert off ctx dshandler.
  induction fuel as [|fuel IH]; intros off ctx dshandler Hle Hfuel; [lia|].
  cbn [walkLoop].
  destruct (match zones s !! sliceFrom q off with
            | Some z => zoneL ds w z ctx dshandler
            | None => Next ctx dshandler
            end) as [o|ctx' dshandler']; [eauto|].
  destruct (NextLabel q off) as [off' e] eqn:Hstep.
  destruct e; [eauto|].
  apply NextLabel_progress in Hstep. apply IH; lia.
Qed.

Lemma zoneLoop_app (ds : bool) (w : Writer) (z1 z2 : list Config)
    (ctx : Ctx) (dshandler : option Config) :
  zoneL ds w (z1 ++ z2) ctx dshandler
  = match zoneL ds w z1 ctx dshandler with
    | Return o => Return o
    | Next ctx' dshandler' => zoneL ds w z2 ctx' dshandler'
    end.
Proof.
  revert ctx dshandler.
  induction z1 as [|h z1 IH]; intros ctx dshandler; [reflexivity|].
  cbn [app zoneLoop].
  destruct (pluginChain h); [|reflexivity].
  destruct (collectMetadata ctx h r) as [ctx'|v]; [|reflexivity].
  destruct (passAllFilterFuncs _ _ _) as [[]|v]; [|apply IH|reflexivity].
  destruct ds; [apply IH|reflexivity].
Qed.

(** The two nested loops of the walk are one loop over the Configs
    under the suffixes, in the order of the walk. *)
Lemma walkLoop_flat (ds : bool) (w : Writer) (q : string) (fuel : nat)
    (off : Z) (ctx : Ctx) (dshandler : option Config) (exit : LoopExit) :
  walkL fuel ds w q off ctx dshandler = Some exit →
  exit = zoneL ds w
           (configsAt s (map (sliceFrom q) (walkOffsets fuel q off)))
           ctx dshandler.
Proof.
  revert off ctx dshandler.
  induction fuel as [|fuel IH]; intros off ctx dshandler; [discriminate|].
  cbn [walkLoop walkOffsets map]. unfold configsAt.
  cbn [map concat]. fold (configsAt s). rewrite zoneLoop_app.
  replace (match zones s !! sliceFrom q off with
           | Some z => zoneL ds w z ctx dshandler
           | None => Next ctx dshandler
           end)
    with (zoneL ds w (default [] (zones s !! sliceFrom q off))
            ctx dshandler)
    by (destruct (zones s !! sliceFrom q off); reflexivity).
  destruct (zoneL ds w (default [] (zones s !! sliceFrom q off))
              ctx dshandler) as [o|ctx' dshandler'].
  - now intros [= <-].
  - destruct (NextLabel q off) as [off' e]. destruct e.
    + now intros [= <-].
    + apply IH.
Qed.

End Walk.

Section Multiplexer.

Variable ClientWrite : Z -> bool.
Variable s : Server.
Variable r : Msg.

Local Abbreviation zoneL := (zoneLoop ClientWrite s r).
Local Abbreviation serveC := (serveChain ClientWrite s r).

(** One step of the zone loop, in terms of [consider]. *)
Lemma zoneLoop_cons (ds : bool) (w : Writer) (h : Config)
    (z : list Config) (chain : Handler) (ctx : Ctx)
    (dshandler : option Config) :
  pluginChain h = Some chain →
  zoneL ds w (h :: z) ctx dshandler
  = match consider r ctx h with
    | Panic v => Return (panics v)
    | Ok (true, ctx') =>
        if ds then zoneL ds w z ctx' (Some h)
        else Return (serveC chain ctx' w)
    | Ok (false, ctx') => zoneL ds w z ctx' dshandler
    end.
Proof.
  intros Hchain. cbn [zoneLoop]. rewrite Hchain. unfold consider.
  destruct (collectMetadata ctx h r) as [ctx'|v]; [|reflexivity].
  now destruct (passAllFilterFuncs _ _ _) as [[]|v].
Qed.

Lemma considered_app (allow : bool -> bool) (ctx : Ctx)
    (hs1 hs2 : list Config) :
  considered r allow ctx (hs1 ++ hs2)
  = match considered r allow ctx hs1 with
    | Some ctx' => considered r allow ctx' hs2
    | None => None
    end.
Proof.
  revert ctx. induction hs1 as [|h hs1 IH]; intros ctx; [reflexivity|].
  cbn [app considered].
  destruct (consider r ctx h) as [[pass ctx']|v]; [|reflexivity].
  destruct (allow pass); [apply IH|reflexivity].
Qed.

(** Configs that have a chain and after each of which the walk goes on
    leave the loop at its end. *)
Lemma zoneLoop_goesOn (ds : bool) (w : Writer) (hs : list Config)
    (ctx ctx' : Ctx) (dshandler : option Config) :
  forallb hasChain hs = true →
  considered r (goesOn ds) ctx hs = Some ctx' →
  ∃ dshandler', zoneL ds w hs ctx dshandler = Next ctx' dshandler'.
Proof.
  revert ctx dshandler.
  induction hs as [|h hs IH]; intros ctx dshandler Hc Hgo.
  - injection Hgo as <-. now eexists.
  - cbn [forallb] in Hc. apply andb_true_iff in Hc as [Hh Hc].
    unfold hasChain in Hh.
    destruct (pluginChain h) as [chain|] eqn:Hchain; [|discriminate].
    rewrite (zoneLoop_cons ds w h hs chain) by assumption.
    cbn [considered] in Hgo.
    destruct (consider r ctx h) as [[[] c]|v]; [| |discriminate].
    + destruct ds; [now apply IH|discriminate].
    + unfold goesOn in Hgo. rewrite orb_true_r in Hgo. now apply IH.
Qed.

(** Configs that have a chain and fail their filters let the loop go
    on, whatever the query type, and keep the DS handler. *)
Lemma zoneLoop_rejected (ds : bool) (w : Writer) (hs : list Config)
    (ctx ctx' : Ctx) (dshandler : option Config) :
  forallb hasChain hs = true →
  rejected r ctx hs = Some ctx' →
  zoneL ds w hs ctx dshandler = Next ctx' dshandler.
Proof.
  unfold rejected. revert ctx.
  induction hs as [|h hs IH]; intros ctx Hc Hr.
  - now injection Hr as <-.
  - cbn [forallb] in Hc. apply andb_true_iff in Hc as [Hh Hc].
    unfold hasChain in Hh.
    destruct (pluginChain h) as [chain|] eqn:Hchain; [|discriminate].
    rewrite (zoneLoop_cons ds w h hs chain) by assumption.
    cbn [considered] in Hr.
    destruct (consider r ctx h) as [[[] c]|v]; try discriminate.
    now apply IH.
Qed.

(** A DS query keeps the last Config that passes. *)
Lemma zoneLoop_DS_last (w : Writer) (pre post : list Config) (h : Config)
    (ctx c1 c2 c3 : Ctx) :
  forallb hasChain (pre ++ h :: post) = true →
  considered r (goesOn true) ctx pre = Some c1 →
  consider r c1 h = Ok (true, c2) →
  rejected r c2 post = Some c3 →
  zoneL true w (pre ++ h :: post) ctx None = Next c3 (Some h).
Proof.
  intros Hc Hpre Hp Hr.
  rewrite forallb_app in Hc. apply andb_true_iff in Hc as [Hcpre Hc].
  cbn [forallb] in Hc. apply andb_true_iff in Hc as [Hh Hpost].
  rewrite zoneLoop_app.
  destruct (zoneLoop_goesOn true w pre ctx c1 None Hcpre Hpre) as [d ->].
  unfold hasChain in Hh.
  destruct (pluginChain h) as [chain|] eqn:Hchain; [|discriminate].
  rewrite (zoneLoop_cons true w h post chain) by assumption.
  rewrite Hp. now apply zoneLoop_rejected.
Qed.

(** Any other query is dispatched to the first Config that passes. *)
Lemma zoneLoop_first (w : Writer) (pre post : list Config) (h : Config)
    (chain : Handler) (ctx c1 c2 : Ctx) :
  forallb hasChain pre = true →
  rejected r ctx pre = Some c1 →
  pluginChain h = Some chain →
  consider r c1 h = Ok (true, c2) →
  zoneL false w (pre ++ h :: post) ctx None = Return (serveC chain c2 w).
Proof.
  intros Hpre Hr Hchain Hp.
  rewrite zoneLoop_app, (zoneLoop_rejected false w pre ctx c1 None Hpre Hr).
  rewrite (zoneLoop_cons false w h post chain) by assumption.
  now rewrite Hp.
Qed.

(** The multiplexer always answers, and what it answers is the loop
    over [visited] followed by what comes after the walk. *)
Lemma multiplex_flat (ctx : Ctx) (q0 : Question) :
  multiplex ClientWrite s r ctx q0
  = Some (match zoneL (Qtype q0 =? TypeDS) ScrubWriter
                  (visited s (ToLower (QName q0))) ctx None with
          | Return o => o
          | Next ctx' dshandler =>
              afterWalk ClientWrite s r (Qtype q0 =? TypeDS) ScrubWriter
                ctx' dshandler
          end).
Proof.
  unfold multiplex, visited, walkSuffixes.
  set (q := ToLower (QName q0)). set (ds := Qtype q0 =? TypeDS).
  destruct (walkLoop_total ClientWrite s r ds ScrubWriter q
              (S (String.length q)) 0 ctx None) as [exit Hexit].
  { unfold len. lia. }
  { unfold len. lia. }
  rewrite Hexit. apply walkLoop_flat in Hexit. rewrite <- Hexit.
  now destruct exit.
Qed.

Lemma serveQuestion_admitted (ctx : Ctx) (q0 : Question) :
  admitted s r q0 →
  serveQuestion ClientWrite s r ctx q0 = multiplex ClientWrite s r ctx q0.
Proof.
  intros [Hclass Hedns]. unfold serveQuestion. rewrite Hedns.
  destruct Hclass as [-> | ->]; [reflexivity|].
  now rewrite Z.eqb_refl, andb_false_r.
Qed.

Lemma ServeDNS_admitted (ctx : Ctx) (q0 : Question) (rest : list Question) :
  Questions r = q0 :: rest →
  admitted s r q0 →
  ServeDNS ClientWrite s r ctx
  = Some (underDefer s r
            (match zoneL (Qtype q0 =? TypeDS) ScrubWriter
                     (visited s (ToLower (QName q0))) ctx None with
             | Return o => o
             | Next ctx' dshandler =>
                 afterWalk ClientWrite s r (Qtype q0 =? TypeDS) ScrubWriter
                   ctx' dshandler
             end)).
Proof.
  intros Hq Hadm. unfold ServeDNS. rewrite Hq.
  rewrite serveQuestion_admitted by assumption.
  now rewrite multiplex_flat.
Qed.

(** ServeDNS never runs out of iterations. *)
Lemma serveQuestion_total (ctx : Ctx) (q0 : Question) :
  ∃ o, serveQuestion ClientWrite s r ctx q0 = Some o.
Proof.
  unfold serveQuestion.
  destruct (negb (classChaos s) && negb (Qclass q0 =? ClassINET));
    [eauto|].
  destruct (ednsVersion r); [eauto|].
  rewrite multiplex_flat. eauto.
Qed.

Lemma ServeDNS_total (ctx : Ctx) :
  ∃ o, ServeDNS ClientWrite s r ctx = Some o.
Proof.
  unfold ServeDNS. destruct (Questions r) as [|q0 rest]; [eauto|].
  destruct (serveQuestion_total ctx q0) as [o ->]. eauto.
Qed.

End Multiplexer.

(** * The suffixes of the walk *)

Lemma length_dropBytes (n : nat) (q : string) :
  String.length (dropBytes n q) = (String.length q - n)%nat.
Proof.
  revert q. induction n as [|n IH]; intros q.
  - cbn. lia.
  - destruct q as [|c q]; [reflexivity|]. cbn. apply IH.
Qed.

Lemma length_sliceFrom (q : string) (off : Z) :
  0 ≤ off ≤ len q →
  Z.of_nat (String.length (sliceFrom q off)) = len q - off.
Proof.
  intros H. unfold sliceFrom, len in *. rewrite length_dropBytes. lia.
Qed.

Lemma nextLabelFrom_dot (q : string) (n : nat) (i off' : Z) :
  nextLabelFrom q n i = (off', false) →
  isByte "."%char (byteAt q (off' - 1)) = true.
Proof.
  revert i. induction n as [|n IH]; intros i H; cbn [nextLabelFrom] in H;
    [discriminate|].
  destruct (labelBreak q i) eqn:Hbreak; [|now apply IH in H].
  injection H as <-. replace (i + 1 - 1) with i by lia.
  unfold labelBreak in Hbreak. now apply andb_true_iff in Hbreak as [? _].
Qed.

(** The byte before a label start found by [NextLabel] is a dot. *)
Lemma NextLabel_dot (q : string) (off off' : Z) :
  NextLabel q off = (off', false) →
  isByte "."%char (byteAt q (off' - 1)) = true.
Proof.
  unfold NextLabel. destruct (String.eqb q EmptyString); [discriminate|].
  apply nextLabelFrom_dot.
Qed.

(** The offsets of the walk: they stay inside the name, each one
    after the first follows a dot, and they increase. *)
Lemma walkOffsets_inside (fuel : nat) (q : string) (off : Z) :
  0 ≤ off ≤ len q →
  Forall (fun o => off ≤ o ≤ len q ∧
                   (o = off ∨
                    isByte "."%char (byteAt q (o - 1)) = true))
         (walkOffsets fuel q off).
Proof.
  revert off. induction fuel as [|fuel IH]; intros off Hoff; [constructor|].
  cbn [walkOffsets]. constructor; [split; [lia|now left]|].
  destruct (NextLabel q off) as [off' e] eqn:Hstep.
  destruct e; [constructor|].
  pose proof (NextLabel_dot _ _ _ Hstep) as Hdot.
  apply NextLabel_progress in Hstep.
  assert (Hoff' : 0 ≤ off' ≤ len q) by lia.
  specialize (IH off' Hoff').
  eapply Forall_impl; [exact IH|].
  intros o [Ho [-> | Hd]]; (split; [lia|right; assumption]).
Qed.

Lemma walkOffsets_increasing (fuel : nat) (q : string) (off : Z) :
  0 ≤ off ≤ len q →
  StronglySorted Z.lt (walkOffsets fuel q off).
Proof.
  revert off. induction fuel as [|fuel IH]; intros off Hoff; [constructor|].
  cbn [walkOffsets].
  destruct (NextLabel q off) as [off' e] eqn:Hstep.
  destruct e; [repeat constructor|].
  apply NextLabel_progress in Hstep.
  assert (Hoff' : 0 ≤ off' ≤ len q) by lia.
  constructor; [now apply IH|].
  eapply Forall_impl; [exact (walkOffsets_inside fuel q off' Hoff')|].
  intros o [Ho _]. lia.
Qed.

Lemma suffixes_shorten (q : string) (offs : list Z) :
  StronglySorted Z.lt offs →
  Forall (fun o => 0 ≤ o ≤ len q) offs →
  StronglySorted (fun a b => (String.length b < String.length a)%nat)
    (map (sliceFrom q) offs).
Proof.
  induction 1 as [|o offs Hsorted IH Hlt]; intros Hin; [constructor|].
  apply Forall_cons in Hin as [Ho Hin].
  cbn [map]. constructor; [now apply IH|].
  rewrite Forall_map.
  rewrite Forall_forall in *. intros o' Ho'.
  pose proof (length_sliceFrom q o Ho).
  pose proof (length_sliceFrom q o' (Hin _ Ho')).
  specialize (Hlt _ Ho'). cbn. lia.
Qed.

(** The walk goes from the full name to ever shorter suffixes. *)
Lemma walkSuffixes_shorten (q : string) :
  StronglySorted (fun a b => (String.length b < String.length a)%nat)
    (walkSuffixes q).
Proof.
  assert (H0 : 0 ≤ 0 ≤ len q) by (unfold len; lia).
  apply suffixes_shorten.
  - now apply walkOffsets_increasing.
  - eapply Forall_impl; [exact (walkOffsets_inside _ q 0 H0)|].
    cbn. intros o [Ho _]. lia.
Qed.

(** The walk looks the root zone up only for the root name itself and
    for a name whose last label is empty. *)
Lemma walkSuffixes_root (q : string) :
  "."%string ∈ walkSuffixes q →
  q = "."%string ∨ isByte "."%char (byteAt q (len q - 2)) = true.
Proof.
  assert (H0 : 0 ≤ 0 ≤ len q) by (unfold len; lia).
  unfold walkSuffixes. intros Hin.
  apply list_elem_of_fmap in Hin as [off [Heq Hoff]].
  pose proof (walkOffsets_inside (S (String.length q)) q 0 H0) as Hall.
  rewrite Forall_forall in Hall. specialize (Hall off Hoff).
  destruct Hall as [Hrange Hdot].
  assert (Hlen : len q - off = 1).
  { rewrite <- length_sliceFrom by lia. now rewrite <- Heq. }
  destruct Hdot as [-> | Hdot].
  - left. now rewrite Heq.
  - right. now replace (len q - 2) with (off - 1) by lia.
Qed.

Lemma walkSuffixes_labelWalk (q : string) :
  labelWalk q (walkSuffixes q).
Proof.
  assert (H0 : 0 ≤ 0 ≤ len q) by (unfold len; lia).
  split; [reflexivity|]. split; [|split].
  - unfold walkSuffixes. rewrite Forall_map.
    eapply Forall_impl; [exact (walkOffsets_inside _ q 0 H0)|].
    cbn. intros off [Hoff Hdot]. exists off. repeat split; auto; lia.
  - apply walkSuffixes_shorten.
  - apply walkSuffixes_root.
Qed.

(** The walk over [www.example.com.] stops at [com.]; escaped dots do
    not start a label. *)
Lemma walkSuffixes_examples :
  walkSuffixes "www.example.com."
    = ["www.example.com."; "example.com."; "com."]%string ∧
  walkSuffixes "." = ["."]%string ∧
  NextLabel "a\.b.c." 0 = (5, false) ∧
  NextLabel "com." 0 = (4, true).
Proof. repeat split; vm_compute; reflexivity. Qed.

(** * The zone multiplexer *)

Lemma underDefer_returns (s : Server) (r : Msg) (t : list Event) :
  underDefer s r (returns t) = returns t.
Proof. unfold underDefer, recovered, returns. now destruct (debug s). Qed.


(** C2, as the code has it: when the walk arrives at a Config without
    a chain -- the Configs met before it have one, are considered
    without a panic and, for a query of another type than DS, fail
    their filters -- ServeDNS answers REFUSED and returns, whatever
    Configs, suffixes, DS handler or root zone would come next. *)
Theorem nil_chain_refused (ClientWrite : Z -> bool) (s : Server)
    (r : Msg) (ctx : Ctx) (q0 : Question) (rest : list Question)
    (pre post : list Config) (h : Config) :
  Questions r = q0 :: rest →
  admitted s r q0 →
  visited s (ToLower (QName q0)) = pre ++ h :: post →
  pluginChain h = None →
  forallb hasChain pre = true →
  is_Some (considered r (goesOn (Qtype q0 =? TypeDS)) ctx pre) →
  ServeDNS ClientWrite s r ctx = Some (refused s r ScrubWriter).
Proof.
  intros Hq Hadm Hvis Hnil Hpre [c Hgo].
  rewrite (ServeDNS_admitted ClientWrite s r ctx q0 rest Hq Hadm), Hvis.
  rewrite zoneLoop_app.
  destruct (zoneLoop_goesOn ClientWrite s r _ ScrubWriter pre ctx c None
              Hpre Hgo) as [d ->].
  cbn [zoneLoop]. rewrite Hnil. apply f_equal, underDefer_returns.
Qed.


Lemma admitted_sample (s : Server) (name : string) (qtype : Z) :
  admitted s (query name qtype ClassINET) (mkQuestion name qtype ClassINET).
Proof. split; [now right|reflexivity]. Qed.



(** C2 on a zone without plugins, with the root zone behind it, and
    on a DS query whose walk has recorded a handler before it meets
    the parent zone without plugins. *)
Lemma nil_chain_refused_witness :
  ServeDNS sampleClientWrite serverEmptyB
    (query "example.com." TypeA ClassINET) Background
  = Some (refused serverEmptyB (query "example.com." TypeA ClassINET)
            ScrubWriter) ∧
  ServeDNS sampleClientWrite serverAEmptyParent
    (query "example.com." TypeDS ClassINET) Background
  = Some (refused serverAEmptyParent
            (query "example.com." TypeDS ClassINET) ScrubWriter).
Proof.
  split.
  - apply (nil_chain_refused sampleClientWrite serverEmptyB
             (query "example.com." TypeA ClassINET) Background
             (mkQuestion "example.com." TypeA ClassINET) []
             [] [] (stored "example.com." [])).
    + reflexivity.
    + apply admitted_sample.
    + vm_compute. reflexivity.
    + reflexivity.
    + reflexivity.
    + now eexists.
  - apply (nil_chain_refused sampleClientWrite serverAEmptyParent
             (query "example.com." TypeDS ClassINET) Background
             (mkQuestion "example.com." TypeDS ClassINET) []
             [stored "example.com." [answering "A"]] []
             (stored "com." [])).
    + reflexivity.
    + apply admitted_sample.
    + vm_compute. reflexivity.
    + reflexivity.
    + reflexivity.
    + now eexists.
Defined.

(** C2, as stated, fails: [example.com.] holds a Config with chain A
    and then one without a chain; the walk reaches that zone name and
    a query of type A is answered by chain A, not refused. *)
Lemma nil_chain_behind_passing_config :
  ServeDNS sampleClientWrite serverAEmpty
    (query "example.com." TypeA ClassINET) Background
  = Some (answer "A") ∧
  ¬ spec_refusesEmptyZone sampleClientWrite serverAEmpty
      (query "example.com." TypeA ClassINET) Background.
Proof.
  split; [vm_compute; reflexivity|].
  intros Hspec.
  specialize (Hspec (mkQuestion "example.com." TypeA ClassINET) []
                "example.com."%string
                [stored "example.com." [answering "A"];
                 stored "example.com." []]
                (stored "example.com." [])
                eq_refl (admitted_sample _ _ _)).
  assert (Hserve : ServeDNS sampleClientWrite serverAEmpty
                     (query "example.com." TypeA ClassINET) Background
                   = Some (refused serverAEmpty
                             (query "example.com." TypeA ClassINET)
                             ScrubWriter)).
  { apply Hspec.
    - exists [], ["com."%string], Background, None.
      split; [vm_compute; reflexivity|reflexivity].
    - vm_compute. reflexivity.
    - apply list_elem_of_further, list_elem_of_here.
    - reflexivity. }
  vm_compute in Hserve. discriminate.
Qed.


(** * Panic recovery *)

Lemma count_app (p : Event -> bool) (t1 t2 : list Event) :
  count p (t1 ++ t2) = (count p t1 + count p t2)%nat.
Proof. unfold count. now rewrite List.filter_app, length_app. Qed.

Lemma count_pluginWrite (p : Event -> bool) (w : Writer)
    (written : list PluginMsg) :
  (∀ m, p (pluginWrite w m) = false) →
  count p (map (pluginWrite w) written) = 0%nat.
Proof.
  intros Hp. induction written as [|m written IH]; [reflexivity|].
  unfold count in *. cbn [map List.filter]. now rewrite Hp.
Qed.

Lemma quiet_returns (t : list Event) :
  count isPanicInc t = 0%nat → quiet (returns t).
Proof. intros H. split; [exact H|discriminate]. Qed.

Section Recovery.

Variable ClientWrite : Z -> bool.
Variable s : Server.
Variable r : Msg.

Local Abbreviation ended := (multiplexed ClientWrite s r).

Lemma multiplexed_zoneLoop (ds : bool) (z : list Config) (ctx : Ctx)
    (dshandler : option Config) (o : Outcome) :
  zoneLoop ClientWrite s r ds ScrubWriter z ctx dshandler = Return o →
  ended o.
Proof.
  revert ctx dshandler.
  induction z as [|h z IH]; intros ctx dshandler; [discriminate|].
  cbn [zoneLoop]. destruct (pluginChain h) as [chain|].
  - destruct (collectMetadata ctx h r) as [ctx'|v].
    + destruct (passAllFilterFuncs _ _ _) as [[]|v]; [|apply IH|].
      * destruct ds; [apply IH|]. intros [= <-]. left. eauto.
      * intros [= <-]. right. right. eauto.
    + intros [= <-]. right. right. eauto.
  - intros [= <-]. right. now left.
Qed.

Lemma multiplexed_rootLoop (z : list Config) (ctx : Ctx) (o : Outcome) :
  rootLoop ClientWrite s r ScrubWriter z ctx = Return o → ended o.
Proof.
  revert ctx. induction z as [|h z IH]; intros ctx; [discriminate|].
  cbn [rootLoop]. destruct (pluginChain h) as [chain|]; [|apply IH].
  destruct (collectMetadata ctx h r) as [ctx'|v].
  - destruct (passAllFilterFuncs _ _ _) as [[]|v]; [|apply IH|].
    + intros [= <-]. left. eauto.
    + intros [= <-]. right. right. eauto.
  - intros [= <-]. right. right. eauto.
Qed.

Lemma multiplexed_rootFallback (ctx : Ctx) :
  ended (rootFallback ClientWrite s r ScrubWriter ctx).
Proof.
  unfold rootFallback. destruct (zones s !! "."%string) as [z|].
  - destruct (rootLoop ClientWrite s r ScrubWriter z ctx) as [o|] eqn:E.
    + now apply multiplexed_rootLoop in E.
    + right. now left.
  - right. now left.
Qed.

Lemma multiplexed_afterWalk (ds : bool) (ctx : Ctx)
    (dshandler : option Config) :
  ended (afterWalk ClientWrite s r ds ScrubWriter ctx dshandler).
Proof.
  unfold afterWalk. destruct ds, dshandler as [h|];
    try apply multiplexed_rootFallback.
  destruct (pluginChain h); [left; eauto|apply multiplexed_rootFallback].
Qed.

(** The multiplexer ends by running one chain or by refusing. *)
Lemma multiplexed_multiplex (ctx : Ctx) (q0 : Question) (o : Outcome) :
  multiplex ClientWrite s r ctx q0 = Some o → ended o.
Proof.
  rewrite multiplex_flat. intros [= <-].
  destruct (zoneLoop _ _ _ _ _ _ _ _) as [o|ctx' dshandler] eqn:E.
  - now apply multiplexed_zoneLoop in E.
  - apply multiplexed_afterWalk.
Qed.

Lemma quiet_serveChain (chain : Handler) (ctx : Ctx) (w : Writer) :
  quiet (serveChain ClientWrite s r chain ctx w).
Proof.
  unfold serveChain.
  destruct (HServeDNS chain ctx w r) as [written [rcode|v]].
  - apply quiet_returns. rewrite count_app, count_pluginWrite by easy.
    now destruct (ClientWrite rcode).
  - split; intros; now apply count_pluginWrite.
Qed.

Lemma quiet_multiplexed (o : Outcome) : ended o → quiet o.
Proof.
  intros [(chain & ctx' & ->) | [-> | (v & ->)]];
    [apply quiet_serveChain|now apply quiet_returns|now split].
Qed.

Lemma quiet_serveQuestion (ctx : Ctx) (q0 : Question) (o : Outcome) :
  serveQuestion ClientWrite s r ctx q0 = Some o → quiet o.
Proof.
  unfold serveQuestion.
  destruct (negb (classChaos s) && negb (Qclass q0 =? ClassINET)).
  { intros [= <-]. now apply quiet_returns. }
  destruct (ednsVersion r).
  { intros [= <-]. now apply quiet_returns. }
  intros H. eapply quiet_multiplexed, multiplexed_multiplex, H.
Qed.

(** Past the scrub writer nothing is written to the raw writer. *)
Lemma scrubbed_serveChain (chain : Handler) (ctx : Ctx) :
  count isRawRefused
    (fst (underDefer s r (serveChain ClientWrite s r chain ctx ScrubWriter)))
  = 0%nat.
Proof.
  unfold underDefer, recovered, serveChain.
  destruct (HServeDNS chain ctx ScrubWriter r) as [written [rcode|v]];
    destruct (debug s); cbn [fst returns];
    rewrite ?count_app, count_pluginWrite by easy;
    try reflexivity; now destruct (ClientWrite rcode).
Qed.

Lemma scrubbed_multiplexed (o : Outcome) :
  ended o → count isRawRefused (fst (underDefer s r o)) = 0%nat.
Proof.
  intros [(chain & ctx' & ->) | [-> | (v & ->)]];
    [apply scrubbed_serveChain|now rewrite underDefer_returns|].
  unfold underDefer, recovered, panics. now destruct (debug s).
Qed.

End Recovery.



(** * The class check *)

(** C7, as the code has it: a request whose first question is not of
    the Internet class is refused by the class check -- reported and
    answered REFUSED on the writer it came with, before anything else
    is looked at -- if and only if no chaos-enabling plugin is in the
    group: when one is in the group, whatever its zone, [classChaos]
    is set and the request goes on to the EDNS check and the
    multiplexer, under the deferred function. *)
Theorem class_check_refuses_without_chaos (ClientWrite : Z -> bool)
    (addr : string) (group : list Config) (r : Msg) (ctx : Ctx)
    (q0 : Question) (rest : list Question) :
  Questions r = q0 :: rest →
  Qclass q0 ≠ ClassINET →
  let s := NewServer addr group in
  classChaos s = hasChaosPlugin group ∧
  (ServeDNS ClientWrite s r ctx = Some (refused s r RawWriter)
   ↔ hasChaosPlugin group = false) ∧
  (hasChaosPlugin group = true →
   ServeDNS ClientWrite s r ctx
   = underDefer s r <$>
       match ednsVersion r with
       | Some m => Some (returns [EvWrite RawWriter m])
       | None => multiplex ClientWrite s r ctx q0
       end).
Proof.
  intros Hq Hclass s.
  assert (Hchaos : classChaos s = hasChaosPlugin group)
    by apply classChaos_NewServer.
  split; [exact Hchaos|].
  apply Z.eqb_neq in Hclass.
  assert (Hgo : hasChaosPlugin group = true →
                ServeDNS ClientWrite s r ctx
                = underDefer s r <$>
                    match ednsVersion r with
                    | Some m => Some (returns [EvWrite RawWriter m])
                    | None => multiplex ClientWrite s r ctx q0
                    end).
  { intros Htrue. unfold ServeDNS, serveQuestion.
    rewrite Hq, Hchaos, Hclass, Htrue. cbn.
    now destruct (ednsVersion r); [|destruct (multiplex _ _ _ _ _)]. }
  split; [|exact Hgo]. split.
  - intros Hrefused. destruct (hasChaosPlugin group); [|reflexivity].
    rewrite (Hgo eq_refl) in Hrefused.
    destruct (ednsVersion r) as [m|].
    + cbn in Hrefused. rewrite underDefer_returns in Hrefused.
      discriminate.
    + destruct (multiplex ClientWrite s r ctx q0) as [o|] eqn:Hmux;
        [|discriminate].
      apply multiplexed_multiplex in Hmux.
      apply (scrubbed_multiplexed ClientWrite s r) in Hmux.
      cbn in Hrefused. injection Hrefused as Hrefused.
      rewrite Hrefused in Hmux. discriminate.
  - intros Hnone. unfold ServeDNS, serveQuestion.
    rewrite Hq, Hchaos, Hclass, Hnone. cbn.
    apply f_equal, underDefer_returns.
Qed.

(** C7 on a CH query without and with a chaos-enabling plugin. *)
Lemma class_check_refuses_without_chaos_witness :
  let r := query "example.com." TypeA ClassCHAOS in
  let r' := query "example.org." TypeA ClassCHAOS in
  ServeDNS sampleClientWrite serverAB r Background
  = Some (refused serverAB r RawWriter) ∧
  ServeDNS sampleClientWrite (NewServer sampleAddr chaosGroup) r' Background
  = Some (answer "chaos").
Proof.
  cbv zeta. split.
  - destruct (class_check_refuses_without_chaos sampleClientWrite sampleAddr
                [sampleConfig "example.com." [answering "A"];
                 sampleConfig "." [answering "B"]]
                (query "example.com." TypeA ClassCHAOS) Background
                (mkQuestion "example.com." TypeA ClassCHAOS) [] eq_refl)
      as (_ & Hrefuse & _).
    + discriminate.
    + apply Hrefuse. reflexivity.
  - destruct (class_check_refuses_without_chaos sampleClientWrite sampleAddr
                chaosGroup
                (query "example.org." TypeA ClassCHAOS) Background
                (mkQuestion "example.org." TypeA ClassCHAOS) [] eq_refl)
      as (_ & _ & Hproceed).
    + discriminate.
    + rewrite Hproceed by reflexivity. vm_compute. reflexivity.
Defined.

(** C7, as stated, fails: with a chaos-enabling plugin on
    [example.org.], a CH query for [other.net.] gets past the class
    check and is answered REFUSED all the same, no zone matching. *)
Lemma refused_with_chaos_plugin :
  let r := query "other.net." TypeA ClassCHAOS in
  hasChaosPlugin chaosGroup = true ∧
  ServeDNS sampleClientWrite (NewServer sampleAddr chaosGroup) r Background
  = Some (refused (NewServer sampleAddr chaosGroup) r ScrubWriter) ∧
  ¬ spec_classGate sampleClientWrite sampleAddr chaosGroup r Background.
Proof.
  cbv zeta. split; [reflexivity|]. split; [vm_compute; reflexivity|].
  intros Hspec.
  specialize (Hspec (mkQuestion "other.net." TypeA ClassCHAOS) [] eq_refl).
  destruct Hspec as [Honly _]; [discriminate|].
  assert (Hnone : hasChaosPlugin chaosGroup = false); [|discriminate].
  apply Honly. eexists _, _, ScrubWriter.
  split; [vm_compute; reflexivity|].
  apply list_elem_of_further, list_elem_of_here.
Qed.

(** * Stop *)

(** [Stop] returns what the last started listener's shutdown
    returned, nil included. *)
Lemma shutdownAll_last (slots : list (option DnsServer))
    (err : option string) :
  shutdownAll slots err
  = default err (last (map Shutdown (omap id slots))).
Proof.
  revert err. induction slots as [|[d|] slots IH]; intros err;
    [reflexivity| |].
  - cbn [shutdownAll omap list_omap id map]. rewrite IH.
    now rewrite default_last_cons.
  - cbn [shutdownAll omap list_omap id]. apply IH.
Qed.

(** C8 at the failing input: the stream listener's shutdown fails, the
    datagram listener's succeeds, and [Stop] returns nil. *)
Theorem Stop_loses_stream_error :
  let s := ServePacket
             (Serve (NewServer sampleAddr [])
                (mkListener (Some "close tcp: broken"%string)))
             (mkListener None) in
  server s ≠ [None; None] ∧
  (∃ dt, server s !! tcp = Some (Some dt) ∧
         Shutdown dt = Some "close tcp: broken"%string) ∧
  snd (Stop false s) = None ∧ snd (Stop true s) = None.
Proof.
  cbv zeta. split; [discriminate|].
  split; [eexists; split; reflexivity|]. split; reflexivity.
Qed.

(** The barrier credit: [NewServer] loads the wait group with one
    credit; [Stop] gives it back, except on Windows. *)
Lemma dnsWg_credit (addr : string) (group : list Config) :
  dnsWg (NewServer addr group) = 1 ∧
  dnsWg (fst (Stop false (NewServer addr group))) = 0 ∧
  dnsWg (fst (Stop true (NewServer addr group))) = 1.
Proof.
  assert (H : ∀ s, dnsWg (fold_left addSite group s) = dnsWg s).
  { induction group as [|c g IH]; intros s; [reflexivity|].
    cbn [fold_left]. now rewrite IH. }
  unfold NewServer, Stop. cbn [fst dnsWg]. rewrite H. now cbn.
Qed.

(** * More on NewServer: zones, chains, tracer, flags *)

(** The Config that the plugin loop leaves does not depend on the
    server it is compiled on. *)
Lemma compileLoop_site_fields (ps : list PluginFunc) (st st' : Compile) :
  stack st = stack st' →
  cRegistry st = cRegistry st' →
  cMetaCollector st = cMetaCollector st' →
  stack (compileLoop ps st) = stack (compileLoop ps st') ∧
  cRegistry (compileLoop ps st) = cRegistry (compileLoop ps st') ∧
  cMetaCollector (compileLoop ps st) = cMetaCollector (compileLoop ps st').
Proof.
  revert st st'. induction ps as [|p ps IH]; intros st st' Hs Hr Hm.
  - now cbn.
  - cbn [compileLoop]. apply IH; cbn [compileStep stack cRegistry
      cMetaCollector]; now rewrite ?Hs, ?Hr, ?Hm.
Qed.

Lemma compiled_any_server (s s' : Server) (site : Config) :
  compiled s site = compiled s' site.
Proof.
  unfold compiled, compilePlugins.
  destruct (compileLoop_site_fields (rev (Plugin site))
              {| stack := None; cRegistry := registry site;
                 cMetaCollector := metaCollector site;
                 cTrace := trace s; cClassChaos := classChaos s |}
              {| stack := None; cRegistry := registry site;
                 cMetaCollector := metaCollector site;
                 cTrace := trace s'; cClassChaos := classChaos s' |}
              eq_refl eq_refl eq_refl) as (-> & -> & ->).
  reflexivity.
Qed.

(** The zone map after a group: under each name the compiled Configs
    of that name are appended in group order. *)
Lemma zones_fold (z : string) (group : list Config) (s s0 : Server) :
  default [] (zones (fold_left addSite group s) !! z)
  = default [] (zones s !! z)
    ++ map (compiled s0) (filter (fun c => Zone c = z) group).
Proof.
  revert s. induction group as [|c group IH]; intros s.
  - cbn. now rewrite app_nil_r.
  - cbn [fold_left]. rewrite IH. cbn [addSite zones].
    rewrite filter_cons. destruct (decide (Zone c = z)) as [<-|Hne].
    + rewrite lookup_insert_eq. cbn.
      rewrite <- app_assoc. cbn [app].
      now rewrite (compiled_any_server s s0).
    + now rewrite lookup_insert_ne.
Qed.

Lemma zones_fold_None (z : string) (group : list Config) (s : Server) :
  zones (fold_left addSite group s) !! z = None ↔
  zones s !! z = None ∧ Forall (fun c => Zone c ≠ z) group.
Proof.
  revert s. induction group as [|c group IH]; intros s.
  - cbn. split; [intros H; split; [exact H|constructor]|now intros [H _]].
  - cbn [fold_left]. rewrite IH. cbn [addSite zones]. split.
    + intros [Hnone Hall].
      destruct (decide (Zone c = z)) as [<-|Hne].
      * now rewrite lookup_insert_eq in Hnone.
      * rewrite lookup_insert_ne in Hnone by assumption.
        split; [exact Hnone|]. now constructor.
    + intros [Hnone Hall]. apply Forall_cons in Hall as [Hne Hall].
      rewrite lookup_insert_ne by assumption. now split.
Qed.

(** The loop builds the chain from the last constructor to the
    first. *)
Lemma compileLoop_snoc (ps : list PluginFunc) (p : PluginFunc)
    (st : Compile) :
  stack (compileLoop (ps ++ [p]) st)
  = Some (p (stack (compileLoop ps st))).
Proof.
  revert st. induction ps as [|p' ps IH]; intros st; [reflexivity|].
  cbn [app compileLoop]. apply IH.
Qed.

Lemma compileLoop_composed (ps : list PluginFunc) (st : Compile) :
  stack st = None →
  stack (compileLoop (rev ps) st) = composed ps.
Proof.
  intros Hst. induction ps as [|p ps IH]; [exact Hst|].
  cbn [rev composed]. now rewrite compileLoop_snoc, IH.
Qed.

Lemma pluginChain_compiled (s : Server) (site : Config) :
  pluginChain (compiled s site) = composed (Plugin site).
Proof.
  unfold compiled, compilePlugins. cbn [setChain pluginChain].
  now apply compileLoop_composed.
Qed.

Lemma FilterFuncs_compiled (s : Server) (site : Config) :
  FilterFuncs (compiled s site) = FilterFuncs site.
Proof. reflexivity. Qed.

(** X1: under a zone name [NewServer] stores the compiled Configs of
    the group that carry this name, in group order, and a name that no
    Config carries is not a key of the zone map. *)
Theorem NewServer_zones_grouped (addr : string) (group : list Config)
    (z : string) :
  default [] (zones (NewServer addr group) !! z)
  = map (compiled (emptyServer addr)) (filter (fun c => Zone c = z) group) ∧
  (zones (NewServer addr group) !! z = None ↔
   Forall (fun c => Zone c ≠ z) group).
Proof.
  unfold NewServer. split.
  - now rewrite (zones_fold z group _ (emptyServer addr)).
  - rewrite zones_fold_None. cbn [emptyServer zones].
    rewrite lookup_empty. tauto.
Qed.

(** X2: the chain of a compiled Config is the first constructor
    applied to the chain of the others, down to nil under the last
    one, whatever chain the Config held before; it is nil exactly when
    the Config has no plugins. *)
Theorem compiled_chain_composed (s : Server) (site : Config) :
  pluginChain (compiled s site) = composed (Plugin site) ∧
  (pluginChain (compiled s site) = None ↔ Plugin site = []).
Proof.
  split; [apply pluginChain_compiled|].
  rewrite pluginChain_compiled. now destruct (Plugin site).
Qed.

Lemma find_app_first {A} (p : A -> bool) (l1 l2 : list A) :
  List.find p (l1 ++ l2)
  = match List.find p l1 with
    | Some x => Some x
    | None => List.find p l2
    end.
Proof.
  induction l1 as [|x l1 IH]; [reflexivity|].
  cbn [app List.find]. now destruct (p x).
Qed.

Lemma compileLoop_trace (ps : list PluginFunc) (st : Compile) :
  cTrace (compileLoop ps st)
  = match cTrace st with
    | Some t => Some t
    | None => List.find isTraceLink (chainLinks ps (stack st))
    end.
Proof.
  revert st. induction ps as [|p ps IH]; intros st.
  - cbn. now destruct (cTrace st).
  - cbn [compileLoop chainLinks List.find]. rewrite IH.
    cbn [compileStep stack cTrace]. fold (isTraceLink (p (stack st))).
    destruct (cTrace st); [reflexivity|].
    now destruct (isTraceLink (p (stack st))).
Qed.

Lemma trace_fold (group : list Config) (s : Server) :
  trace (fold_left addSite group s)
  = match trace s with
    | Some t => Some t
    | None => List.find isTraceLink (concat (map linksOf group))
    end.
Proof.
  revert s. induction group as [|c group IH]; intros s.
  - cbn. now destruct (trace s).
  - cbn [fold_left]. rewrite IH. cbn [addSite trace].
    unfold compilePlugins. rewrite compileLoop_trace.
    cbn [cTrace stack]. fold (linksOf c).
    cbn [map concat]. rewrite find_app_first.
    destruct (trace s); [reflexivity|].
    now destruct (List.find isTraceLink (linksOf c)).
Qed.

(** X3: the tracer of the server is the first link named [trace]
    that implements [trace.Trace], in the order [NewServer] builds the
    links: Config after Config, and inside a Config from the last
    registered plugin to the first; later ones never replace it. *)
Theorem NewServer_tracer_first_met (addr : string) (group : list Config) :
  Tracer (NewServer addr group)
  = List.find isTraceLink (concat (map linksOf group)).
Proof. unfold Tracer, NewServer. now rewrite trace_fold. Qed.

Lemma debug_fold (group : list Config) (s : Server) :
  debug (fold_left addSite group s) = debug s || existsb Debug group.
Proof.
  revert s. induction group as [|c group IH]; intros s.
  - cbn. now rewrite orb_false_r.
  - cbn [fold_left existsb]. rewrite IH. cbn [addSite debug].
    now destruct (Debug c), (debug s).
Qed.

Lemma stacktrace_fold (group : list Config) (s : Server) :
  stacktrace (fold_left addSite group s)
  = default (stacktrace s) (last (map Stacktrace group)).
Proof.
  revert s. induction group as [|c group IH]; intros s; [reflexivity|].
  cbn [fold_left map]. rewrite IH. cbn [addSite stacktrace].
  now rewrite default_last_cons.
Qed.

(** X4: the server is in debug mode when some Config of the group
    asks for it, and it logs stack traces when the last Config of the
    group asks for it, whatever the Configs before it say. *)
Theorem NewServer_debug_any_stacktrace_last (addr : string)
    (group : list Config) :
  debug (NewServer addr group) = existsb Debug group ∧
  stacktrace (NewServer addr group)
  = default false (last (map Stacktrace group)).
Proof.
  unfold NewServer. now rewrite debug_fold, stacktrace_fold.
Qed.

(** * More on the multiplexer *)

Lemma walkSuffixes_cons (q : string) :
  ∃ tl, walkSuffixes q = q :: tl.
Proof. unfold walkSuffixes. cbn [walkOffsets map]. now eexists. Qed.

Lemma filter_none {A} (P : A → Prop) `{∀ x, Decision (P x)} (l : list A) :
  Forall (fun x => ¬ P x) l → filter P l = [].
Proof.
  induction 1 as [|x l Hx _ IH]; [reflexivity|].
  rewrite filter_cons, decide_False by assumption. exact IH.
Qed.

(** X5: a server answers for the zones it was built from.  When
    [site] is the first Config of the group under its zone name and has
    plugins, a query of another type than DS whose name is that zone
    name in any letter case, and which passes the site's filters, gets
    the outcome of the chain composed from the site's plugins. *)
Theorem own_zone_round_trip (ClientWrite : Z -> bool) (addr : string)
    (pre post : list Config) (site : Config) (chain : Handler)
    (r : Msg) (ctx ctx' : Ctx) (q0 : Question) (rest : list Question) :
  let s := NewServer addr (pre ++ site :: post) in
  Forall (fun c => Zone c ≠ Zone site) pre →
  composed (Plugin site) = Some chain →
  Questions r = q0 :: rest →
  admitted s r q0 →
  ToLower (QName q0) = Zone site →
  Qtype q0 ≠ TypeDS →
  consider r ctx (compiled s site) = Ok (true, ctx') →
  ServeDNS ClientWrite s r ctx
  = Some (underDefer s r
            (serveChain ClientWrite s r chain ctx' ScrubWriter)).
Proof.
  intros s Hfirst Hchain Hq Hadm Hname Hty Hpass.
  rewrite (ServeDNS_admitted ClientWrite s r ctx q0 rest Hq Hadm).
  apply Z.eqb_neq in Hty. rewrite Hty, Hname.
  destruct (walkSuffixes_cons (Zone site)) as [tl Htl].
  unfold visited, configsAt. rewrite Htl. cbn [map concat].
  assert (Hzone : default [] (zones s !! Zone site)
                  = compiled s site
                    :: map (compiled s)
                         (filter (fun c => Zone c = Zone site) post)).
  { subst s. unfold NewServer at 1.
    rewrite (zones_fold _ _ _ (NewServer addr (pre ++ site :: post))).
    cbn [emptyServer zones]. rewrite lookup_empty. cbn [default app].
    rewrite filter_app, (filter_none _ pre) by assumption.
    cbn [app]. rewrite filter_cons, decide_True by reflexivity.
    reflexivity. }
  rewrite Hzone. cbn [app].
  pose proof (zoneLoop_first ClientWrite s r ScrubWriter []
                (map (compiled s)
                   (filter (fun c => Zone c = Zone site) post)
                 ++ concat (map (fun z => default [] (zones s !! z)) tl))
                (compiled s site) chain ctx ctx ctx'
                eq_refl eq_refl) as Hfirst'.
  cbn [app] in Hfirst'. rewrite Hfirst'; [reflexivity| |assumption].
  now rewrite pluginChain_compiled.
Qed.

(** X5 on the server of [example.com.] and the root zone, asked for
    [Example.COM.]. *)
Lemma own_zone_round_trip_witness :
  ServeDNS sampleClientWrite serverAB
    (query "Example.COM." TypeA ClassINET) Background
  = Some (answer "A").
Proof.
  unfold serverAB.
  change [sampleConfig "example.com." [answering "A"];
          sampleConfig "." [answering "B"]]
    with ([] ++ sampleConfig "example.com." [answering "A"]
             :: [sampleConfig "." [answering "B"]]).
  rewrite (own_zone_round_trip sampleClientWrite sampleAddr []
             [sampleConfig "." [answering "B"]]
             (sampleConfig "example.com." [answering "A"])
             (answering "A" None)
             (query "Example.COM." TypeA ClassINET) Background Background
             (mkQuestion "Example.COM." TypeA ClassINET) []).
  - vm_compute. reflexivity.
  - constructor.
  - reflexivity.
  - reflexivity.
  - apply admitted_sample.
  - reflexivity.
  - vm_compute. discriminate.
  - reflexivity.
Defined.

Lemma walkLoop_more_fuel (ClientWrite : Z -> bool) (s : Server) (r : Msg)
    (ds : bool) (w : Writer) (q : string) (fuel fuel' : nat) (off : Z)
    (ctx : Ctx) (dshandler : option Config) (exit : LoopExit) :
  (fuel ≤ fuel')%nat →
  walkLoop ClientWrite s r fuel ds w q off ctx dshandler = Some exit →
  walkLoop ClientWrite s r fuel' ds w q off ctx dshandler = Some exit.
Proof.
  revert fuel' off ctx dshandler.
  induction fuel as [|fuel IH]; intros fuel' off ctx dshandler Hle;
    [discriminate|].
  destruct fuel' as [|fuel']; [lia|].
  cbn [walkLoop].
  destruct (match zones s !! sliceFrom q off with
            | Some z => zoneLoop ClientWrite s r ds w z ctx dshandler
            | None => Next ctx dshandler
            end) as [o|ctx' dshandler']; [easy|].
  destruct (NextLabel q off) as [off' e]. destruct e; [easy|].
  apply IH. lia.
Qed.

Lemma walkOffsets_length (fuel : nat) (q : string) (off : Z) :
  0 ≤ off ≤ len q →
  Z.of_nat (length (walkOffsets fuel q off)) ≤ Z.max 1 (len q - off).
Proof.
  revert off. induction fuel as [|fuel IH]; intros off Hoff; [cbn; lia|].
  cbn [walkOffsets]. destruct (NextLabel q off) as [off' e] eqn:Hstep.
  destruct e; [cbn; lia|].
  apply NextLabel_progress in Hstep.
  assert (Hoff' : 0 ≤ off' ≤ len q) by lia.
  specialize (IH off' Hoff'). cbn [length]. lia.
Qed.

(** X6: the suffix walk ends.  With one iteration allowed per byte of
    the name and one more it comes to its end, more iterations change
    nothing, and it looks up at most as many zone names as the name has
    bytes (one for the empty name). *)
Theorem suffix_walk_bounded (ClientWrite : Z -> bool) (s : Server)
    (r : Msg) (ds : bool) (w : Writer) (q : string) (ctx : Ctx)
    (dshandler : option Config) :
  (∃ exit, ∀ fuel, (String.length q < fuel)%nat →
           walkLoop ClientWrite s r fuel ds w q 0 ctx dshandler
           = Some exit) ∧
  (length (walkSuffixes q) ≤ Nat.max 1 (String.length q))%nat.
Proof.
  split.
  - destruct (walkLoop_total ClientWrite s r ds w q (S (String.length q))
                0 ctx dshandler) as [exit Hexit]; [unfold len; lia..|].
    exists exit. intros fuel Hfuel.
    apply (walkLoop_more_fuel _ _ _ _ _ _ (S (String.length q))); [lia|].
    exact Hexit.
  - unfold walkSuffixes. rewrite length_map.
    pose proof (walkOffsets_length (S (String.length q)) q 0) as H.
    unfold len in H. lia.
Qed.

Lemma lowerByte_idempotent (c : ascii) :
  lowerByte (lowerByte c) = lowerByte c.
Proof. destruct c as [[] [] [] [] [] [] [] []]; reflexivity. Qed.

Lemma ToLower_idempotent (q : string) : ToLower (ToLower q) = ToLower q.
Proof.
  induction q as [|c q IH]; [reflexivity|].
  cbn [ToLower]. now rewrite lowerByte_idempotent, IH.
Qed.

Lemma ToLower_dropBytes (n : nat) (q : string) :
  ToLower (dropBytes n q) = dropBytes n (ToLower q).
Proof.
  revert q. induction n as [|n IH]; intros q; [reflexivity|].
  destruct q as [|c q]; [reflexivity|]. cbn. apply IH.
Qed.



(** X8: [passAllFilterFuncs] says yes exactly when every filter says
    yes; otherwise its result is that of the first filter that does
    not say yes (no, or its panic), and the filters behind that one
    are not asked. *)
Theorem passAllFilterFuncs_first_no (ctx : Ctx) (r : Msg)
    (ffs : list FilterFunc) :
  (passAllFilterFuncs ctx ffs r = Ok true ↔
   Forall (fun ff => ff ctx r = Ok true) ffs) ∧
  (∀ pre ff post,
     ffs = pre ++ ff :: post →
     Forall (fun f => f ctx r = Ok true) pre →
     ff ctx r ≠ Ok true →
     passAllFilterFuncs ctx ffs r = ff ctx r).
Proof.
  split.
  - induction ffs as [|ff ffs IH]; cbn [passAllFilterFuncs].
    + split; [constructor|reflexivity].
    + destruct (ff ctx r) as [[]|v] eqn:E.
      * rewrite IH. split; [now constructor|].
        intros H. now apply Forall_cons in H as [_ H].
      * split; [discriminate|]. intros H. apply Forall_cons in H as [H _].
        congruence.
      * split; [discriminate|]. intros H. apply Forall_cons in H as [H _].
        congruence.
  - intros pre ff post -> Hpre Hno.
    induction Hpre as [|f pre Hf _ IH]; cbn [app passAllFilterFuncs].
    + now destruct (ff ctx r) as [[]|v].
    + now rewrite Hf.
Qed.

(** * The answers the server builds *)

Ltac dropped :=
  repeat first [ apply List.Forall_nil
               | apply List.Forall_cons; [cbn; auto|] ].

Lemma Forall_pluginWrite (P : Event → Prop) (w : Writer)
    (written : list PluginMsg) :
  (∀ m, P (pluginWrite w m)) → Forall P (map (pluginWrite w) written).
Proof.
  intros HP. induction written as [|m written IH]; constructor; auto.
Qed.

Section Built.

Variable ClientWrite : Z -> bool.
Variable s : Server.
Variable r : Msg.

Local Abbreviation wellAnswered := (wellAnswered ClientWrite s r).

Lemma wellAnswered_returns (t : list Event) :
  count isServerBuilt t = 1%nat →
  (count isReport t ≤ 1)%nat →
  Forall droppedReport t →
  wellAnswered (underDefer s r (returns t)).
Proof.
  intros Hbuilt Hreport Hdropped. rewrite underDefer_returns.
  unfold wellAnswered. cbn [fst returns]. rewrite Hbuilt.
  repeat split; auto. discriminate.
Qed.

Lemma wellAnswered_serveChain (chain : Handler) (ctx : Ctx) :
  wellAnswered
    (underDefer s r (serveChain ClientWrite s r chain ctx ScrubWriter)).
Proof.
  unfold underDefer, recovered, serveChain, wellAnswered.
  destruct (HServeDNS chain ctx ScrubWriter r) as [written [rc|v]] eqn:E.
  - assert (Hsame : (if debug s
                     then returns (map (pluginWrite ScrubWriter) written ++
                            (if ClientWrite rc then []
                             else errorFunc (Addr s) ScrubWriter r rc))
                     else returns (map (pluginWrite ScrubWriter) written ++
                            (if ClientWrite rc then []
                             else errorFunc (Addr s) ScrubWriter r rc)))
                    = returns (map (pluginWrite ScrubWriter) written ++
                         (if ClientWrite rc then []
                          else errorFunc (Addr s) ScrubWriter r rc)))
      by now destruct (debug s).
    unfold returns in *. rewrite Hsame. cbn [fst].
    rewrite !count_app, !count_pluginWrite by easy.
    destruct (ClientWrite rc) eqn:Hcw; cbn; repeat split; try lia.
    + rewrite app_nil_r. now apply Forall_pluginWrite.
    + intros _ _. now exists chain, ctx, written, rc.
    + apply Forall_app. split; [now apply Forall_pluginWrite|].
      dropped.
  - destruct (debug s); cbn [fst returns];
      rewrite ?count_app, !count_pluginWrite by easy; cbn;
      repeat split; try lia; try discriminate.
    + now apply Forall_pluginWrite.
    + apply Forall_app. split; [now apply Forall_pluginWrite|].
      dropped.
Qed.

Lemma wellAnswered_multiplexed (o : Outcome) :
  multiplexed ClientWrite s r o → wellAnswered (underDefer s r o).
Proof.
  intros [(chain & ctx' & ->) | [-> | (v & ->)]].
  - apply wellAnswered_serveChain.
  - apply wellAnswered_returns; [reflexivity|cbn; lia|].
    dropped.
  - unfold underDefer, recovered, panics, wellAnswered.
    destruct (debug s); cbn; repeat split; try lia; try discriminate;
      dropped.
Qed.

End Built.



(** * Serve, ServePacket and Stop together *)

(** X10: [Stop] returns nil when no listener was started, the result
    of shutting the stream server down when only [Serve] was called,
    and the result of shutting the datagram server down whenever
    [ServePacket] was called, in whichever order; it leaves the slots
    filled. *)
Theorem Stop_returns_last_started (windows : bool) (addr : string)
    (group : list Config) (l p : Listener) :
  let s := NewServer addr group in
  snd (Stop windows s) = None ∧
  snd (Stop windows (Serve s l)) = shutdownError l ∧
  snd (Stop windows (ServePacket s p)) = shutdownError p ∧
  snd (Stop windows (ServePacket (Serve s l) p)) = shutdownError p ∧
  snd (Stop windows (Serve (ServePacket s p) l)) = shutdownError p ∧
  server (fst (Stop windows (ServePacket (Serve s l) p)))
  = server (ServePacket (Serve s l) p).
Proof.
  intros s.
  assert (Hslots : server s = [None; None]).
  { subst s. unfold NewServer. now rewrite server_fold. }
  unfold Stop, Serve, ServePacket, setSlot. cbn [snd fst server].
  rewrite Hslots. cbn. repeat split.
Qed.

(** X11: [Serve] and [ServePacket] fill different slots, so they can
    be called in either order, and a second [Serve] replaces the
    stream server of the first. *)
Theorem Serve_ServePacket_compose (s : Server) (l l' p : Listener) :
  ServePacket (Serve s l) p = Serve (ServePacket s p) l ∧
  Serve (Serve s l) l' = Serve s l' ∧
  server (Serve s l) !! udp = server s !! udp ∧
  server (ServePacket s p) !! tcp = server s !! tcp.
Proof.
  unfold Serve, ServePacket, setSlot. cbn [server tsigSecret readTimeout
    writeTimeout idleTimeout Addr zones dnsWg graceTimeout trace debug
    stacktrace classChaos].
  repeat split.
  - f_equal. now apply list_insert_insert_ne.
  - f_equal. apply list_insert_insert_eq.
  - now apply list_lookup_insert_ne.
  - now apply list_lookup_insert_ne.
Qed.

(** * Listen and ListenPacket *)

Lemma dropBytes_append (p q : string) :
  dropBytes (String.length p) (p +:+ q) = q.
Proof. induction p as [|c p IH]; [reflexivity|exact IH]. Qed.

Lemma length_append (p q : string) :
  String.length (p +:+ q) = (String.length p + String.length q)%nat.
Proof.
  induction p as [|c p IH]; [reflexivity|].
  change (S (String.length (p +:+ q))
          = S (String.length p + String.length q)).
  now rewrite IH.
Qed.

Lemma append_assoc' (a b c : string) :
  (a +:+ b +:+ c = (a +:+ b) +:+ c)%string.
Proof.
  induction a as [|x a IH]; [reflexivity|].
  change (String x (a +:+ b +:+ c) = String x ((a +:+ b) +:+ c)).
  now rewrite IH.
Qed.

(** X12: with tailscale set up, [Listen] and [ListenPacket] bind the
    address of the server without its scheme prefix: for an address
    [DNS://hostport] they ask tailscale for [hostport], over tcp and
    over udp, and hand on what tailscale returns, error included. *)
Theorem Listen_strips_scheme (DNS : string) (ts : TailscaleHandle)
    (s : Server) (hostport : string) :
  Addr s = (DNS +:+ "://" +:+ hostport)%string →
  Listen DNS (Some ts) s = Ok (tsListen ts "tcp" hostport) ∧
  ListenPacket DNS (Some ts) s = Ok (tsListenPacket ts "udp" hostport).
Proof.
  intros Haddr.
  assert (Hhp : hostPort DNS s = Ok hostport).
  { unfold hostPort, len. rewrite Haddr.
    rewrite append_assoc'.
    rewrite length_append.
    destruct (Z.ltb_spec
                (Z.of_nat (String.length (DNS +:+ "://")
                           + String.length hostport))
                (Z.of_nat (String.length (DNS +:+ "://")))); [lia|].
    unfold sliceFrom. now rewrite Nat2Z.id, dropBytes_append. }
  unfold Listen, ListenPacket. now rewrite Hhp.
Qed.

(** X12 on the address of the sample servers. *)
Lemma Listen_strips_scheme_witness :
  Listen "dns" (Some echoHandle) (NewServer sampleAddr [])
  = Ok (Value (mkListener (Some ".:53"%string))) ∧
  ListenPacket "dns" (Some echoHandle) (NewServer sampleAddr [])
  = Ok (Value (mkListener (Some ".:53"%string))).
Proof.
  apply (Listen_strips_scheme "dns" echoHandle (NewServer sampleAddr [])
           ".:53").
  reflexivity.
Defined.

(** X13: before tailscale is set up, [Listen] and [ListenPacket]
    return an error, whatever the address, and bind nothing; once it
    is set up, an address shorter than the scheme prefix makes them
    panic. *)
Theorem Listen_without_tailscale (DNS : string) (s : Server) :
  Listen DNS None s
  = Ok (Failure ("server: tailscale plugin not initialized and already trying to listen on "
                 +:+ Addr s)) ∧
  ListenPacket DNS None s
  = Ok (Failure "server: tailscale plugin not initialized") ∧
  (∀ ts, (String.length (Addr s) < String.length DNS + 3)%nat →
         Listen DNS (Some ts) s = Panic "slice bounds out of range" ∧
         ListenPacket DNS (Some ts) s = Panic "slice bounds out of range").
Proof.
  split; [reflexivity|]. split; [reflexivity|].
  intros ts Hshort. unfold Listen, ListenPacket, hostPort, len.
  rewrite length_append. cbn [String.length].
  destruct (Z.ltb_spec (Z.of_nat (String.length (Addr s)))
              (Z.of_nat (String.length DNS + 3))); [now split|lia].
Qed.

(** * Package tsproxy *)

Section TsproxyFacts.

Variable closeable : Type.
Variable tsnetServer : Type.
Variable NewUdpProxy : option tsnetServer -> Z -> string -> Z -> closeable.
Variable NewTcpProxy : option tsnetServer -> Z -> string -> Z -> closeable.

Local Abbreviation newP := (Tsproxy.newProxy closeable tsnetServer
                              NewUdpProxy NewTcpProxy).
Local Abbreviation loop := (Tsproxy.startLoop closeable tsnetServer
                              NewUdpProxy NewTcpProxy).
Local Abbreviation startP := (Tsproxy.start closeable tsnetServer
                                NewUdpProxy NewTcpProxy).
Local Abbreviation made := (Tsproxy.proxyFor closeable tsnetServer
                              NewUdpProxy NewTcpProxy).

Lemma newProxy_supported (srv : option tsnetServer) (c : Tsproxy.channel) :
  Tsproxy.supported c → newP (Some srv) c = Ok (made srv c).
Proof.
  unfold Tsproxy.newProxy, Tsproxy.proxyFor. intros [-> | ->]; reflexivity.
Qed.

Lemma newProxy_unsupported (ts : option (option tsnetServer))
    (c : Tsproxy.channel) :
  ¬ Tsproxy.supported c →
  newP ts c = Panic ("wat " +:+ Tsproxy.protocol c)%string.
Proof.
  unfold Tsproxy.newProxy, Tsproxy.supported. intros Hno.
  destruct (String.eqb_spec (Tsproxy.protocol c) "udp"); [tauto|].
  destruct (String.eqb_spec (Tsproxy.protocol c) "tcp"); [tauto|].
  reflexivity.
Qed.

Lemma startLoop_supported (srv : option tsnetServer)
    (ps : list closeable) (channels : list Tsproxy.channel) :
  Forall Tsproxy.supported channels →
  loop (Some srv) ps channels = (ps ++ map (made srv) channels, Ok tt).
Proof.
  intros Hall. revert ps.
  induction Hall as [|c channels Hc _ IH]; intros ps.
  - cbn. now rewrite app_nil_r.
  - cbn [Tsproxy.startLoop map]. rewrite newProxy_supported by assumption.
    rewrite IH. now rewrite <- app_assoc.
Qed.

Lemma close_all (ps : list closeable) : Tsproxy.close closeable ps = ps.
Proof. induction ps as [|p ps IH]; [reflexivity|]. cbn. now rewrite IH. Qed.

(** X14: with tailscale set up and every channel of protocol [udp] or
    [tcp], [start] returns after appending to the proxies one proxy per
    channel, in the order of the channels and made from the channel's
    ports and target; the last line logged counts all proxies held,
    those of earlier calls included, and [close] then closes each of
    them once, in this order. *)
Theorem tsproxy_start_supported (srv : option tsnetServer)
    (ps : list closeable) (channels : list Tsproxy.channel) :
  Forall Tsproxy.supported channels →
  startP (Some srv) ps channels
  = Tsproxy.mkRun closeable
      (ps ++ map (made srv) channels)
      [Tsproxy.Starting (length channels);
       Tsproxy.Started (length ps + length channels)]
      (Ok tt) ∧
  Tsproxy.close closeable
    (Tsproxy.proxies closeable (startP (Some srv) ps channels))
  = ps ++ map (made srv) channels.
Proof.
  intros Hall. unfold Tsproxy.start.
  rewrite startLoop_supported by assumption. cbn [Tsproxy.proxies].
  rewrite close_all, length_app, length_map. now split.
Qed.

(** X15: at the first channel of another protocol [start] panics with
    [wat] and the protocol; the proxies of the channels before it have
    been started and stay in the list, the channels behind it are not
    looked at, and the second line is not logged. *)
Theorem tsproxy_start_unsupported (srv : option tsnetServer)
    (ps : list closeable) (pre post : list Tsproxy.channel)
    (c : Tsproxy.channel) :
  Forall Tsproxy.supported pre →
  ¬ Tsproxy.supported c →
  startP (Some srv) ps (pre ++ c :: post)
  = Tsproxy.mkRun closeable
      (ps ++ map (made srv) pre)
      [Tsproxy.Starting (length (pre ++ c :: post))]
      (Panic ("wat " +:+ Tsproxy.protocol c)%string).
Proof.
  intros Hpre Hc.
  assert (Hloop : loop (Some srv) ps (pre ++ c :: post)
                  = (ps ++ map (made srv) pre,
                     Panic ("wat " +:+ Tsproxy.protocol c)%string)).
  { revert ps. induction Hpre as [|c' pre Hc' _ IH]; intros ps.
    - cbn [app Tsproxy.startLoop map].
      rewrite newProxy_unsupported by assumption. now rewrite app_nil_r.
    - cbn [app Tsproxy.startLoop map].
      rewrite newProxy_supported by assumption.
      rewrite IH. now rewrite <- app_assoc. }
  unfold Tsproxy.start. now rewrite Hloop.
Qed.

(** X16: before tailscale is set up [start] starts no proxy: it
    returns only for an empty channel list and panics at the first
    channel otherwise, leaving the proxies as they were. *)
Theorem tsproxy_start_without_tailscale (ps : list closeable)
    (channels : list Tsproxy.channel) :
  Tsproxy.proxies closeable (startP None ps channels) = ps ∧
  (Tsproxy.outcome closeable (startP None ps channels) = Ok tt
   ↔ channels = []).
Proof.
  unfold Tsproxy.start. destruct channels as [|c channels].
  - now cbn.
  - cbn [Tsproxy.startLoop].
    assert (Hp : ∃ v, newP None c = Panic v).
    { unfold Tsproxy.newProxy.
      destruct (String.eqb _ "udp"); [eauto|].
      destruct (String.eqb _ "tcp"); eauto. }
    destruct Hp as [v ->]. cbn. split; [reflexivity|]. split; discriminate.
Qed.

End TsproxyFacts.

(** X14 on one udp and one tcp channel. *)
Lemma tsproxy_start_supported_witness :
  Tsproxy.proxies Tsproxy.SampleProxy
    (Tsproxy.start Tsproxy.SampleProxy unit
       (fun _ => Tsproxy.Udp) (fun _ => Tsproxy.Tcp) (Some None) []
       [Tsproxy.mkChannel "udp" 53 "10.0.0.1" 53;
        Tsproxy.mkChannel "tcp" 80 "10.0.0.2" 8080])
  = [Tsproxy.Udp 53 "10.0.0.1" 53; Tsproxy.Tcp 80 "10.0.0.2" 8080].
Proof.
  destruct (tsproxy_start_supported Tsproxy.SampleProxy unit
              (fun _ => Tsproxy.Udp) (fun _ => Tsproxy.Tcp) None []
              [Tsproxy.mkChannel "udp" 53 "10.0.0.1" 53;
               Tsproxy.mkChannel "tcp" 80 "10.0.0.2" 8080]) as [Hrun _].
  - repeat (apply List.Forall_cons; [cbv; auto|]). apply List.Forall_nil.
  - rewrite Hrun. reflexivity.
Defined.

(** X15 on a channel of protocol [UDP], in capitals, behind a udp
    channel. *)
Lemma tsproxy_start_unsupported_witness :
  Tsproxy.start Tsproxy.SampleProxy unit
    (fun _ => Tsproxy.Udp) (fun _ => Tsproxy.Tcp) (Some None) []
    [Tsproxy.mkChannel "udp" 53 "10.0.0.1" 53;
     Tsproxy.mkChannel "UDP" 54 "10.0.0.1" 54;
     Tsproxy.mkChannel "tcp" 80 "10.0.0.2" 8080]
  = Tsproxy.mkRun Tsproxy.SampleProxy
      [Tsproxy.Udp 53 "10.0.0.1" 53]
      [Tsproxy.Starting 3]
      (Panic "wat UDP").
Proof.
  apply (tsproxy_start_unsupported Tsproxy.SampleProxy unit
           (fun _ => Tsproxy.Udp) (fun _ => Tsproxy.Tcp) None []
           [Tsproxy.mkChannel "udp" 53 "10.0.0.1" 53]
           [Tsproxy.mkChannel "tcp" 80 "10.0.0.2" 8080]
           (Tsproxy.mkChannel "UDP" 54 "10.0.0.1" 54)).
  - repeat (apply List.Forall_cons; [cbv; auto|]). apply List.Forall_nil.
  - intros [H | H]; discriminate H.
Defined.

(** * Package tsbind *)

Lemma fold_append_all {A} (acc xs : list A) :
  fold_left (fun all x => all ++ [x]) xs acc = acc ++ xs.
Proof.
  revert acc. induction xs as [|x xs IH]; intros acc.
  - cbn. now rewrite app_nil_r.
  - cbn [fold_left]. rewrite IH. now rewrite <- app_assoc.
Qed.

(** X17: [setup] of tsbind replaces the listen hosts of the Config by
    the tailscale addresses, in the order tailscale gives them, and
    drops the hosts configured before; when tailscale is not set up or
    its status call fails it returns an error and leaves the listen
    hosts alone. *)
Theorem tsbind_setup_replaces_hosts
    (tailscale : option (Fallible (list string))) (hosts : list string) :
  match tailscale with
  | Some (Value ips) => Tsbind.setup tailscale hosts = (ips, None)
  | Some (Failure err) =>
      Tsbind.setup tailscale hosts
      = (hosts, Some ("tailscale status: " +:+ err)%string)
  | None =>
      Tsbind.setup tailscale hosts
      = (hosts, Some "tsbind: tailscale not initialized"%string)
  end.
Proof.
  destruct tailscale as [[ips|err]|]; try reflexivity.
  cbn [Tsbind.setup]. now rewrite fold_append_all.
Qed.

(** * Package tailscale *)

Lemma waitRunning_nil (answers : list (Fallible string))
    (eff : list Tailscale.Effect) :
  Tailscale.waitRunning answers = (eff, Some None) →
  ∃ pre rest,
    answers = pre ++ Value "Running"%string :: rest ∧
    Forall (fun a => ∃ state, a = Value state ∧ state ≠ "Running"%string)
      pre ∧
    length (List.filter Tailscale.isSleep eff) = length pre.
Proof.
  revert eff. induction answers as [|a answers IH]; intros eff;
    cbn [Tailscale.waitRunning]; [discriminate|].
  destruct a as [state|err]; [|discriminate].
  destruct (String.eqb_spec state "Running") as [->|Hne].
  - intros [= <-]. exists [], answers. repeat split. constructor.
  - destruct (Tailscale.waitRunning answers) as [eff' res] eqn:E.
    intros [= <- ->].
    destruct (IH eff' eq_refl) as (pre & rest & -> & Hpre & Hlen).
    exists (Value state :: pre), rest. repeat split.
    + constructor; [eauto|assumption].
    + cbn. now rewrite Hlen.
Qed.

Lemma waitRunning_no_disk (answers : list (Fallible string)) :
  List.filter Tailscale.touchesDisk (fst (Tailscale.waitRunning answers))
  = [].
Proof.
  induction answers as [|a answers IH]; [reflexivity|].
  cbn [Tailscale.waitRunning]. destruct a as [state|err]; [|reflexivity].
  destruct (String.eqb state "Running"); [reflexivity|].
  destruct (Tailscale.waitRunning answers) as [eff res]. exact IH.
Qed.

(** X18: when the tailscale of the system answers, [start] makes no
    directory and starts no embedded server: the handle it leaves has
    no server and the client of the system. *)
Theorem tailscale_start_system_mode
    (Join : string -> string -> string -> string)
    (w : Tailscale.World) (hostname : string) :
  Tailscale.systemStatus w = None →
  Tailscale.Tailscale (Tailscale.start Join w hostname)
  = Some (Tailscale.mkTailscaleServer None (Some Tailscale.systemClient)) ∧
  List.filter Tailscale.touchesDisk
    (Tailscale.effects (Tailscale.start Join w hostname)) = [].
Proof.
  intros Hsys. unfold Tailscale.start, Tailscale.systemTailscaleRunning.
  rewrite Hsys. unfold Tailscale.waitWith.
  pose proof (waitRunning_no_disk (Tailscale.statuses w)) as Hdisk.
  destruct (Tailscale.waitRunning (Tailscale.statuses w)) as [eff res].
  now split.
Qed.

(** X19: [start] returns nil only after tailscale has reported the
    state [Running]: the status answers before that one were other
    states, it slept once for each of them, and the handle it leaves
    has a client. *)
Theorem tailscale_start_nil_after_running
    (Join : string -> string -> string -> string)
    (w : Tailscale.World) (hostname : string) :
  Tailscale.result (Tailscale.start Join w hostname) = Some None →
  ∃ pre rest,
    Tailscale.statuses w = pre ++ Value "Running"%string :: rest ∧
    Forall (fun a => ∃ state, a = Value state ∧ state ≠ "Running"%string)
      pre ∧
    length (List.filter Tailscale.isSleep
              (Tailscale.effects (Tailscale.start Join w hostname)))
    = length pre ∧
    ∃ ts c,
      Tailscale.Tailscale (Tailscale.start Join w hostname) = Some ts ∧
      Tailscale.Client ts = Some c.
Proof.
  unfold Tailscale.start, Tailscale.waitWith, Tailscale.failed.
  destruct (Tailscale.systemTailscaleRunning w).
  - destruct (Tailscale.waitRunning (Tailscale.statuses w)) as [eff res] eqn:E.
    cbn. intros ->.
    destruct (waitRunning_nil _ _ E) as (pre & rest & Hs & Hpre & Hlen).
    exists pre, rest. repeat split; eauto.
  - destruct (Tailscale.userConfigDir w) as [dir|err]; [|discriminate].
    destruct (Tailscale.mkdirAll w _); [discriminate|].
    destruct (Tailscale.serverStart w _); [discriminate|].
    destruct (Tailscale.localClient w _); [discriminate|].
    destruct (Tailscale.waitRunning (Tailscale.statuses w)) as [eff res] eqn:E.
    cbn. intros ->.
    destruct (waitRunning_nil _ _ E) as (pre & rest & Hs & Hpre & Hlen).
    exists pre, rest. repeat split; eauto.
Qed.

(** X19 on that world. *)
Lemma tailscale_start_nil_after_running_witness :
  ∃ pre rest,
    Tailscale.statuses sampleWorld = pre ++ Value "Running"%string :: rest ∧
    Forall (fun a => ∃ state, a = Value state ∧ state ≠ "Running"%string)
      pre ∧
    length (List.filter Tailscale.isSleep
              (Tailscale.effects
                 (Tailscale.start Tailscale.sampleJoin sampleWorld "gw")))
    = length pre ∧
    ∃ ts c,
      Tailscale.Tailscale
        (Tailscale.start Tailscale.sampleJoin sampleWorld "gw") = Some ts ∧
      Tailscale.Client ts = Some c.
Proof.
  apply (tailscale_start_nil_after_running Tailscale.sampleJoin
           sampleWorld "gw").
  reflexivity.
Defined.

(** X18 on a world in which the tailscale of the system answers. *)
Lemma tailscale_start_system_mode_witness :
  let w := Tailscale.mkWorld None (Failure "no home") (fun _ => None)
             (fun _ => None) (fun _ => None) [Value "Running"%string] in
  Tailscale.Tailscale (Tailscale.start Tailscale.sampleJoin w "gw")
  = Some (Tailscale.mkTailscaleServer None (Some Tailscale.systemClient)) ∧
  List.filter Tailscale.touchesDisk
    (Tailscale.effects (Tailscale.start Tailscale.sampleJoin w "gw")) = [].
Proof.
  cbv zeta.
  apply (tailscale_start_system_mode Tailscale.sampleJoin
           (Tailscale.mkWorld None (Failure "no home") (fun _ => None)
              (fun _ => None) (fun _ => None) [Value "Running"%string])
           "gw").
  reflexivity.
Defined.

(** X20: [start] leaves the global handle set whenever it returns,
    also with an error; a handle without a client is left only by a
    call that returns an error, and when the config directory cannot
    be found or made the embedded server is not started. *)
Theorem tailscale_start_leaves_handle
    (Join : string -> string -> string -> string)
    (w : Tailscale.World) (hostname : string) :
  ∃ ts,
    Tailscale.Tailscale (Tailscale.start Join w hostname) = Some ts ∧
    (Tailscale.Client ts = None →
     ∃ err, Tailscale.result (Tailscale.start Join w hostname)
            = Some (Some err)) ∧
    (Tailscale.Server ts = None →
     List.filter
       (fun e => match e with Tailscale.ServerStart _ => true | _ => false end)
       (Tailscale.effects (Tailscale.start Join w hostname)) = []).
Proof.
  assert (Hwait : ∀ answers,
            List.filter
              (fun e => match e with
                        | Tailscale.ServerStart _ => true
                        | _ => false
                        end)
              (fst (Tailscale.waitRunning answers)) = []).
  { induction answers as [|a answers IH]; [reflexivity|].
    cbn [Tailscale.waitRunning]. destruct a as [state|err]; [|reflexivity].
    destruct (String.eqb state "Running"); [reflexivity|].
    destruct (Tailscale.waitRunning answers) as [eff res]. exact IH. }
  unfold Tailscale.start, Tailscale.waitWith, Tailscale.failed.
  destruct (Tailscale.systemTailscaleRunning w).
  - specialize (Hwait (Tailscale.statuses w)).
    destruct (Tailscale.waitRunning (Tailscale.statuses w)) as [eff res].
    eexists. split; [reflexivity|]. split; [discriminate|]. now intros _.
  - destruct (Tailscale.userConfigDir w) as [dir|err].
    2: { eexists. split; [reflexivity|]. split; [eauto|reflexivity]. }
    destruct (Tailscale.mkdirAll w _) as [err|].
    { eexists. split; [reflexivity|]. split; [eauto|reflexivity]. }
    destruct (Tailscale.serverStart w _) as [err|].
    { eexists. split; [reflexivity|]. split; [eauto|discriminate]. }
    destruct (Tailscale.localClient w _) as [err|].
    { eexists. split; [reflexivity|]. split; [eauto|discriminate]. }
    destruct (Tailscale.waitRunning (Tailscale.statuses w)) as [eff res].
    eexists. split; [reflexivity|]. split; discriminate.
Qed.

(** * More on the merged TSIG secrets and on unmatched names *)

Lemma tsig_fold_None (k : string) (group : list Config) (s : Server) :
  tsigSecret (fold_left addSite group s) !! k = None ↔
  tsigSecret s !! k = None ∧
  Forall (fun c => TsigSecret c !! k = None) group.
Proof.
  revert s. induction group as [|c group IH]; intros s.
  - cbn. split; [intros H; split; [exact H|constructor]|now intros [H _]].
  - cbn [fold_left]. rewrite IH. cbn [addSite tsigSecret].
    rewrite lookup_union_None. split.
    + intros [[Hc Hs] Hall]. split; [exact Hs|now constructor].
    + intros [Hs Hall]. apply Forall_cons in Hall as [Hc Hall]. tauto.
Qed.

(** X21: a key name is missing from the merged TSIG map exactly when
    no Config of the group defines a secret under it. *)
Theorem tsig_key_missing_iff_undefined (addr : string)
    (group : list Config) (k : string) :
  tsigSecret (NewServer addr group) !! k = None ↔
  Forall (fun c => TsigSecret c !! k = None) group.
Proof.
  unfold NewServer. rewrite tsig_fold_None. cbn [emptyServer tsigSecret].
  rewrite lookup_empty. tauto.
Qed.

Lemma configsAt_unknown (s : Server) (zs : list string) :
  Forall (fun z => zones s !! z = None) zs → configsAt s zs = [].
Proof.
  unfold configsAt. induction 1 as [|z zs Hz _ IH]; [reflexivity|].
  cbn [map concat]. now rewrite Hz, IH.
Qed.

(** X22: a request that gets past the class and EDNS checks and whose
    name has no suffix among the zone names of the server, the root
    zone not being configured either, is answered REFUSED, with a
    report to the metrics and without any plugin being run. *)
Theorem unmatched_name_refused (ClientWrite : Z -> bool) (s : Server)
    (r : Msg) (ctx : Ctx) (q0 : Question) (rest : list Question) :
  Questions r = q0 :: rest →
  admitted s r q0 →
  Forall (fun z => zones s !! z = None)
    (walkSuffixes (ToLower (QName q0))) →
  zones s !! "."%string = None →
  ServeDNS ClientWrite s r ctx = Some (refused s r ScrubWriter).
Proof.
  intros Hq Hadm Hnone Hroot.
  rewrite (ServeDNS_admitted ClientWrite s r ctx q0 rest Hq Hadm).
  unfold visited. rewrite configsAt_unknown by assumption.
  cbn [zoneLoop]. apply f_equal.
  assert (Hfall : rootFallback ClientWrite s r ScrubWriter ctx
                  = refused s r ScrubWriter)
    by (unfold rootFallback; now rewrite Hroot).
  unfold afterWalk. destruct (Qtype q0 =? TypeDS);
    rewrite Hfall; apply underDefer_returns.
Qed.

(** X22 on the server of [example.com.] and [com.], asked for
    [other.net.]. *)
Lemma unmatched_name_refused_witness :
  ServeDNS sampleClientWrite serverAC
    (query "other.net." TypeA ClassINET) Background
  = Some (refused serverAC (query "other.net." TypeA ClassINET)
            ScrubWriter).
Proof.
  apply (unmatched_name_refused sampleClientWrite serverAC
           (query "other.net." TypeA ClassINET) Background
           (mkQuestion "other.net." TypeA ClassINET) []).
  - reflexivity.
  - apply admitted_sample.
  - vm_compute. repeat constructor.
  - vm_compute. reflexivity.
Defined.
